(** * Credit-card table filter ([csv/abc.py])

    The script loads a CSV table with pandas, builds two boolean masks
    (a network tier named in any of four network columns, an issuer named in
    the bank column), conjoins them, takes the distinct card names of the
    selected rows and prints them.

    The development embeds the script's pandas expressions one by one and
    proves the properties of the filtering logic. *)

From Stdlib Require Import Ascii String NArith.
From stdpp Require Import base decidable option list strings gmap.

Local Open Scope string_scope.

(** ** Text

    A text is a [string]: the UTF-8 bytes of a Python [str]. The two patterns
    of the script are ASCII, and an ASCII pattern occurs in a text exactly
    when its bytes occur in the bytes of the text. *)

Module Text.

Definition is_upper (c : ascii) : bool :=
  ((65 <=? N_of_ascii c) && (N_of_ascii c <=? 90))%N.

Definition is_lower (c : ascii) : bool :=
  ((97 <=? N_of_ascii c) && (N_of_ascii c <=? 122))%N.

Definition lower_char (c : ascii) : ascii :=
  if is_upper c then ascii_of_N (N_of_ascii c + 32) else c.

Definition upper_char (c : ascii) : ascii :=
  if is_lower c then ascii_of_N (N_of_ascii c - 32) else c.

(** Lower-casing of the ASCII letters, every other byte as it is: what
    [s.lower()] is on an ASCII text. *)
Fixpoint ascii_lower (s : string) : string :=
  match s with
  | EmptyString => EmptyString
  | String c s' => String (lower_char c) (ascii_lower s')
  end.

Definition is_ascii_char (c : ascii) : bool := (N_of_ascii c <? 128)%N.

Fixpoint is_ascii (s : string) : bool :=
  match s with
  | EmptyString => true
  | String c s' => is_ascii_char c && is_ascii s'
  end.

(** [re.search(pat, s) is not None] for a pattern without metacharacters,
    which is how [str.contains] (default [regex=True]) reads the two literal
    patterns of the script: [pat] occurs in [s] at some offset. *)
Fixpoint search (pat s : string) : bool :=
  String.prefix pat s ||
  match s with
  | EmptyString => false
  | String _ s' => search pat s'
  end.

(** The letter in the other case; any other character as it is. *)
Definition swapcase_char (c : ascii) : ascii :=
  if is_upper c then lower_char c else upper_char c.

(** [s'] is [s] in another casing of its ASCII letters: the same length and,
    at every offset, the same byte or the ASCII letter in the other case. *)
Fixpoint case_variant (s s' : string) : bool :=
  match s, s' with
  | EmptyString, EmptyString => true
  | String c t, String c' t' =>
      (Ascii.eqb c' c || Ascii.eqb c' (swapcase_char c)) && case_variant t t'
  | _, _ => false
  end.

(** [pat] occurs in [s]. *)
Definition substring_of (pat s : string) : Prop :=
  ∃ pre post, s = pre +:+ pat +:+ post.

(** A letter that occurs in no numeral, no boolean and no missing-value
    token that [pd.read_csv] recognises ([1e5], [inf], [Infinity], [True],
    [false], [NaN], [NULL], [None], [#N/A], [1.#QNAN], [-1.#IND], ...). *)
Definition text_letter (c : ascii) : bool :=
  existsb (Ascii.eqb (lower_char c)) ["c"; "g"; "h"; "k"; "m"; "p"; "v"; "w"; "z"]%char.

(** A field with such a letter: it is text whatever else it holds. *)
Fixpoint wordy (s : string) : bool :=
  match s with
  | EmptyString => false
  | String c s' => text_letter c || wordy s'
  end.

Definition is_digit (c : ascii) : bool :=
  ((48 <=? N_of_ascii c) && (N_of_ascii c <=? 57))%N.

Fixpoint all_digits (s : string) : bool :=
  match s with
  | EmptyString => true
  | String c s' => is_digit c && all_digits s'
  end.

(** An unsigned decimal integer of at most fifteen digits, written without
    a leading zero. *)
Definition is_uint (s : string) : bool :=
  all_digits s && (1 <=? String.length s)%nat && (String.length s <=? 15)%nat &&
  (String.eqb s "0" || negb (String.prefix "0" s)).

End Text.

(** ** Exceptions

    What the script can raise, and a result type for the expressions that
    may raise. *)

Inductive exn : Type :=
| FileNotFoundError
| KeyError (labels : list string)
| AttributeError.

Inductive result (A : Type) : Type :=
| Ok (a : A)
| Raise (e : exn).
Arguments Ok {A} a.
Arguments Raise {A} e.

#[global] Instance result_ret : MRet result := λ A a, Ok a.
#[global] Instance result_bind : MBind result := λ A B f m,
  match m with
  | Ok a => f a
  | Raise e => Raise e
  end.

(** ** What the script takes from Python and pandas

    A cell is a [str] or NaN ([None]). Three functions of the libraries are
    not in the repository and are taken as they are, with the facts about
    them that the proofs use:
    - [py_lower] is [str.lower];
    - [na_value] tells the fields that [pd.read_csv] reads as a missing
      value (the empty field, [NA], [nan], [NULL], ...);
    - [to_numeric] is the conversion [pd.read_csv] tries on a column that has
      a value: when every value of the column is a numeral, or every one a
      boolean, the column takes a numeric or boolean dtype and [to_numeric]
      gives its values as Python prints them; otherwise the column stays a
      column of text and [to_numeric] gives nothing.

    The facts: [str.lower] on an ASCII text lowers its ASCII letters; two
    texts that differ in the case of ASCII letters only have the same
    lower-cased form; [nan] is a missing-value token and a field with a text
    letter is none; a column with a field that has a text letter is a column
    of text; the conversion gives one value per row and keeps NaN where it
    was. *)

Abbreviation cell := (option string).
Abbreviation Series := (list (option string)).
Abbreviation Row := (gmap string string).

Class Pandas : Type := {
  py_lower : string → string;
  na_value : string → bool;
  to_numeric : list cell → option (list cell);
  lower_ascii : ∀ s, Text.is_ascii s = true → py_lower s = Text.ascii_lower s;
  lower_case_variant : ∀ s s', Text.case_variant s s' = true → py_lower s = py_lower s';
  na_nan : na_value "nan" = true;
  na_wordy : ∀ t, Text.wordy t = true → na_value t = false;
  to_numeric_wordy : ∀ cells t,
    Some t ∈ cells → Text.wordy t = true → to_numeric cells = None;
  to_numeric_length : ∀ cells vs, to_numeric cells = Some vs → length vs = length cells;
  to_numeric_nan : ∀ cells vs i,
    to_numeric cells = Some vs → cells !! i = Some None ↔ vs !! i = Some None
}.

(** ** The pandas objects the script uses

    A column holds its values and whether it is a column of text, which the
    [.str] accessor asks for; a DataFrame is a list of labelled columns over
    one row index. *)

Record Column (A : Type) : Type := mkColumn {
  is_text : bool;
  values : list A
}.
Arguments mkColumn {A} is_text values.
Arguments is_text {A} c.
Arguments values {A} c.

Record DataFrame (A : Type) : Type := mkDF {
  index : nat;                        (* number of rows *)
  data : list (string * Column A)     (* the columns, in header order *)
}.
Arguments mkDF {A} index data.
Arguments index {A} d.
Arguments data {A} d.

(** The field of a record under a label, as [pd.read_csv] reads it: NaN when
    the record has no field there or the field is a missing-value token. *)
Definition cell_of `{Pandas} (r : Row) (c : string) : cell :=
  f ← r !! c; if na_value f then None else Some f.

(** The dtype [pd.read_csv] gives a column, the file being read in one
    piece: a table without rows has columns of text; a column without any
    value is a [float64] column of NaN; any other column is what
    [to_numeric] makes of it. *)
Definition infer `{Pandas} (cells : list cell) : Column cell :=
  match cells with
  | [] => mkColumn true []
  | _ =>
      if forallb (λ v : cell, bool_decide (v = None)) cells then mkColumn false cells
      else match to_numeric cells with
           | Some vs => mkColumn false vs
           | None => mkColumn true cells
           end
  end.

(** The column [pd.read_csv] makes of the fields under one label. *)
Definition loaded_column `{Pandas} (records : list Row) (c : string) : Column cell :=
  infer ((λ r, cell_of r c) <$> records).

(** The table [pd.read_csv] makes of a header and the records under it: one
    column per header label, one row per record. *)
Definition read_rows `{Pandas} (header : list string) (records : list Row) :
    DataFrame cell :=
  {| index := length records;
     data := (λ c, (c, loaded_column records c)) <$> header |}.

Fixpoint assoc {A} (c : string) (l : list (string * A)) : option A :=
  match l with
  | [] => None
  | (c', x) :: l' => if decide (c = c') then Some x else assoc c l'
  end.

(** [df[c]] *)
Definition getitem {A} (df : DataFrame A) (c : string) : result (Column A) :=
  match assoc c (data df) with
  | Some s => Ok s
  | None => Raise (KeyError [c])
  end.

(** [df[cs]] for a list of labels: the sub-frame of these columns, or a
    [KeyError] naming the labels that are not columns. *)
Definition getitem_list {A} (df : DataFrame A) (cs : list string) :
    result (DataFrame A) :=
  match filter (λ c, assoc c (data df) = None) cs with
  | [] => Ok {| index := index df;
                data := omap (λ c, pair c <$> assoc c (data df)) cs |}
  | missing => Raise (KeyError missing)
  end.

(** [col.str]: the accessor is refused on a column that is not of text. *)
Definition str_accessor (col : Column cell) : result Series :=
  if is_text col then Ok (values col) else Raise AttributeError.

(** [frame.apply(f)]: [f] on every column, in order; the first exception of
    [f] ends it. *)
Fixpoint apply_columns {A B} (f : Column A → result (Column B))
    (cols : list (string * Column A)) : result (list (string * Column B)) :=
  match cols with
  | [] => Ok []
  | (c, col) :: cols' =>
      col' ← f col; rest ← apply_columns f cols'; mret ((c, col') :: rest)
  end.

Definition apply {A B} (f : Column A → result (Column B)) (df : DataFrame A) :
    result (DataFrame B) :=
  cols ← apply_columns f (data df); mret {| index := index df; data := cols |}.

(** [frame.any(axis=1)]: per row, whether some column holds [True]. *)
Definition any_axis1 (df : DataFrame bool) : list bool :=
  (λ i, existsb (λ col, nth i (values col.2) false) (data df)) <$> seq 0 (index df).

(** [s.str.lower()]: NaN stays NaN. *)
Definition str_lower `{Pandas} (col : Series) : Series :=
  (λ v : cell, py_lower <$> v) <$> col.

(** [s.str.contains(pat, na=na)] *)
Definition str_contains (pat : string) (na : bool) (col : Series) : list bool :=
  (λ v : cell, match v with Some t => Text.search pat t | None => na end) <$> col.

(** [a & b] on two boolean Series over the same index. *)
Definition series_and (a b : list bool) : list bool := zip_with andb a b.

Fixpoint boolean_index {A} (mask : list bool) (s : list A) : list A :=
  match mask, s with
  | b :: mask', x :: s' =>
      if b then x :: boolean_index mask' s' else boolean_index mask' s'
  | _, _ => []
  end.

(** [df.loc[mask, c]]: the cells of column [c] in the rows the mask selects. *)
Definition loc {A} (df : DataFrame A) (mask : list bool) (c : string) :
    result (list A) :=
  col ← getitem df c; mret (boolean_index mask (values col)).

(** [series.unique()]: the values in order of first appearance, NaN being one
    value. [seen] is the table of values met so far. *)
Fixpoint unique_from (seen : list cell) (s : Series) : Series :=
  match s with
  | [] => []
  | v :: s' =>
      if decide (v ∈ seen) then unique_from seen s'
      else v :: unique_from (v :: seen) s'
  end.

Definition unique (s : Series) : Series := unique_from [] s.

(** ** The script *)

Definition network_cols : list string :=
  ["Network 1"; "Network 2"; "Network 3"; "Network 4"].

Definition visa_mask `{Pandas} (df : DataFrame cell) : result (list bool) :=
  sub ← getitem_list df network_cols;
  hits ← apply (λ col, s ← str_accessor col;
                       mret (mkColumn false
                               (str_contains "visa signature" false (str_lower s))))
               sub;
  mret (any_axis1 hits).

Definition canara_mask `{Pandas} (df : DataFrame cell) : result (list bool) :=
  bank ← getitem df "Bank";
  s ← str_accessor bank;
  mret (str_contains "icici" false (str_lower s)).

Definition final_mask `{Pandas} (df : DataFrame cell) : result (list bool) :=
  visa ← visa_mask df;
  canara ← canara_mask df;
  mret (series_and visa canara).

Definition matching_cards `{Pandas} (df : DataFrame cell) : result Series :=
  mask ← final_mask df;
  names ← loc df mask "Credit Card Name";
  mret (unique names).

(** Standard output is the list of lines printed so far. *)
Abbreviation stdout := (list string).

(** [str(v)] of a cell: NaN prints as [nan]. *)
Definition str (v : cell) : string := default "nan" v.

(** [print(a, b, ...)]: the arguments joined by one space, as one line. *)
Definition print (args : list string) (out : stdout) : stdout :=
  out ++ [String.concat " " args].

Definition header_line : string :=
  "Matching Credit Cards with both 'Visa' and 'Canara':".

Definition report (cards : Series) (out : stdout) : stdout :=
  foldl (λ out card, print [""; str card; "(Visa Signature)"] out)
        (print [header_line] out) cards.

Definition file_path : string :=
  "C:/Users/suman/OneDrive/Documents/movieee/csv/Credit+Card+Products 17 july.csv".

(** The whole script. [read_csv] is what [pd.read_csv] makes of a path in the
    file system of the run: a table, or an exception. The script gives back
    the lines on standard output and how the run ends. *)
Definition script `{Pandas} (read_csv : string → result (DataFrame cell))
    (out : stdout) : stdout * result () :=
  match df ← read_csv file_path; matching_cards df with
  | Ok cards => (report cards out, Ok ())
  | Raise e => (out, Raise e)
  end.

(** ** A reference instance of the libraries

    The missing-value tokens of [pd.read_csv], [str.lower] on ASCII letters
    and a conversion that knows the unsigned integers (an integer column
    without NaN keeps its numerals; with NaN it is a [float64] column and
    [7] prints as [7.0]). They are used to run the script on tables whose
    texts are ASCII and whose numerals are unsigned integers; the properties
    are proved for every instance. *)

Definition na_tokens : list string :=
  [""; "#N/A"; "#N/A N/A"; "#NA"; "-1.#IND"; "-1.#QNAN"; "-NaN"; "-nan";
   "1.#IND"; "1.#QNAN"; "<NA>"; "N/A"; "NA"; "NULL"; "NaN"; "None"; "n/a";
   "nan"; "null"].

Definition default_na (f : string) : bool := bool_decide (f ∈ na_tokens).

Definition uint_to_numeric (cells : list cell) : option (list cell) :=
  if forallb (λ v : cell, from_option Text.is_uint true v) cells then
    Some (if forallb (λ v : cell, bool_decide (is_Some v)) cells then cells
          else (λ v : cell, (λ t, t +:+ ".0") <$> v) <$> cells)
  else None.

(** ** Tables for the examples *)

(** The example of the specification: six columns, four records; no record
    has a value under [Network 3] or [Network 4]. *)
Definition example_header : list string :=
  ["Credit Card Name"; "Bank"; "Network 1"; "Network 2"; "Network 3"; "Network 4"].

Definition example_records : list Row :=
  [ {[ "Network 1" := "Visa Signature"; "Bank" := "ICICI Bank";
       "Credit Card Name" := "Card A" ]};
    {[ "Network 1" := "Rupay"; "Bank" := "ICICI Bank";
       "Credit Card Name" := "Card B" ]};
    {[ "Network 2" := "VISA SIGNATURE"; "Bank" := "HDFC";
       "Credit Card Name" := "Card C" ]};
    {[ "Network 1" := "Visa Signature"; "Bank" := "ICICI";
       "Credit Card Name" := "Card A" ]} ].

(** The header of the example with the columns its records name only. *)
Definition named_header : list string :=
  ["Network 1"; "Bank"; "Credit Card Name"; "Network 2"].

(** A record with a text in every column. *)
Definition card_z : Row :=
  {[ "Network 1" := "Mastercard World"; "Network 2" := "Rupay Select";
     "Network 3" := "Visa Platinum"; "Network 4" := "Amex Gold";
     "Bank" := "HDFC Bank"; "Credit Card Name" := "Card Z" ]}.

(** The example followed by [card_z]: every column holds a text. *)
Definition catalogue : list Row := example_records ++ [card_z].

(** The catalogue in another letter case of its network and bank cells. *)
Definition recased_catalogue : list Row :=
  [ {[ "Network 1" := "VISA SIGNATURE"; "Bank" := "icici bank";
       "Credit Card Name" := "Card A" ]};
    {[ "Network 1" := "rupay"; "Bank" := "ICICI BANK";
       "Credit Card Name" := "Card B" ]};
    {[ "Network 2" := "Visa signaturE"; "Bank" := "hdfc";
       "Credit Card Name" := "Card C" ]};
    {[ "Network 1" := "vISA sIGNATURE"; "Bank" := "IcIcI";
       "Credit Card Name" := "Card A" ]};
    {[ "Network 1" := "MASTERCARD WORLD"; "Network 2" := "rupay select";
       "Network 3" := "VISA platinum"; "Network 4" := "amex GOLD";
       "Bank" := "hdfc bank"; "Credit Card Name" := "Card Z" ]} ].

(** A table of one record, which names a network in three of the four
    network columns and none in the fourth. *)
Definition three_network_records : list Row :=
  [ {[ "Network 1" := "Visa Signature"; "Network 2" := "Rupay";
       "Network 3" := "Mastercard"; "Bank" := "ICICI Bank";
       "Credit Card Name" := "Card A" ]} ].

(** A record that names no network, and the catalogue followed by it. *)
Definition no_network_record : Row :=
  {[ "Bank" := "ICICI Bank"; "Credit Card Name" := "Card D" ]}.

Definition no_network_records : list Row := catalogue ++ [no_network_record].

(** A table of one record that names no network. *)
Definition lone_records : list Row := [no_network_record].

(** A qualifying record without a card name, and the catalogue followed by
    it. *)
Definition unnamed_record : Row :=
  {[ "Network 3" := "Visa Signature"; "Bank" := "ICICI Bank" ]}.

Definition unnamed_records : list Row := catalogue ++ [unnamed_record].


Definition partial_header : list string :=
  ["Credit Card Name"; "Bank"; "Network 1"; "Network 3"].

Definition bankless_header : list string :=
  ["Network 1"; "Network 2"; "Network 3"; "Network 4"].

Definition wide_header : list string :=
  ["Network 4"; "Annual Fee"; "Network 3"; "Bank"; "Network 2";
   "Credit Card Name"; "Network 1"; "Rewards"].

(** Records to put after the catalogue. *)
Definition later_records : list Row :=
  [ {[ "Network 4" := "visa signature"; "Bank" := "icici bank ltd";
       "Credit Card Name" := "Card E" ]};
    {[ "Network 1" := "Visa Signature"; "Bank" := "ICICI Bank";
       "Credit Card Name" := "Card A" ]} ].

Definition repeated_records : list Row :=
  [ {[ "Network 2" := "Visa Signature"; "Bank" := "Icici";
       "Credit Card Name" := "Card A" ]};
    {[ "Network 1" := "Mastercard"; "Bank" := "ICICI Bank";
       "Credit Card Name" := "Card F" ]} ].

(** Two tables of one record that differ in the letter case of the bank
    field: [NA] is a missing-value token, [na] is a text. *)
Definition bank_na_upper : list Row :=
  [ {[ "Network 1" := "Visa Signature"; "Network 2" := "Rupay";
       "Network 3" := "Mastercard"; "Network 4" := "Amex";
       "Bank" := "NA"; "Credit Card Name" := "Card A" ]} ].


(** ** The row view

    The vocabulary in which the properties are stated: what a record of the
    table has to look like for the script to keep its card name. *)

(** The cell holds a text that contains [needle], letter case put aside. *)
Definition contains_ci `{Pandas} (needle : string) (v : cell) : Prop :=
  ∃ t, v = Some t ∧ Text.substring_of (py_lower needle) (py_lower t).

Definition network_match `{Pandas} (r : Row) : Prop :=
  ∃ c, c ∈ network_cols ∧ contains_ci "visa signature" (cell_of r c).

Definition bank_match `{Pandas} (r : Row) : Prop :=
  contains_ci "icici" (cell_of r "Bank").

Definition qualifies `{Pandas} (r : Row) : Prop := network_match r ∧ bank_match r.

(** The column under a label is a column of text. *)
Definition text_column `{Pandas} (records : list Row) (c : string) : Prop :=
  is_text (loaded_column records c) = true.

#[global] Instance text_column_dec `{Pandas} (records : list Row) (c : string) :
  Decision (text_column records c) := bool_eq_dec _ _.

(** The values of the card-name column, one per record. *)
Definition card_names `{Pandas} (records : list Row) : Series :=
  values (loaded_column records "Credit Card Name").

(** Record [i] is the first qualifying record whose card name is [v]. *)
Definition first_qualifying `{Pandas} (records : list Row) (v : cell) (i : nat) : Prop :=
  (∃ r, records !! i = Some r ∧ qualifies r ∧ card_names records !! i = Some v) ∧
  ∀ j r, j < i → records !! j = Some r → qualifies r → card_names records !! j ≠ Some v.

(** The card-name cell of a record. *)
Definition card_name `{Pandas} (r : Row) : cell := cell_of r "Credit Card Name".

(** The six columns the script reads are columns of text. *)
Definition read_columns : list string := "Credit Card Name" :: "Bank" :: network_cols.

Definition all_text `{Pandas} (records : list Row) : Prop :=
  Forall (text_column records) read_columns.

(** The same tests as functions, for the proofs. *)
Definition cell_test `{Pandas} (needle : string) (v : cell) : bool :=
  match v with
  | Some t => Text.search needle (py_lower t)
  | None => false
  end.

Definition network_test `{Pandas} (r : Row) : bool :=
  existsb (λ c, cell_test "visa signature" (cell_of r c)) network_cols.

Definition bank_test `{Pandas} (r : Row) : bool := cell_test "icici" (cell_of r "Bank").

Definition qualifies_test `{Pandas} (r : Row) : bool := network_test r && bank_test r.

(** Row [i] is the first one that the mask keeps with the value [v]. *)
Definition first_kept (mask : list bool) (names : Series) (v : cell) (i : nat) : Prop :=
  (mask !! i = Some true ∧ names !! i = Some v) ∧
  ∀ j, j < i → mask !! j = Some true → names !! j ≠ Some v.

(** Two cells that differ in the case of ASCII letters only. *)
Definition cell_variant (v v' : cell) : Prop :=
  match v, v' with
  | Some t, Some t' => Text.case_variant t t' = true
  | None, None => True
  | _, _ => False
  end.


(** Two records whose network and bank cells, as [pd.read_csv] reads them,
    differ in the case of ASCII letters only. *)
Definition row_variant `{Pandas} (r r' : Row) : Prop :=
  Forall (λ c, cell_variant (cell_of r c) (cell_of r' c)) ("Bank" :: network_cols).

(** The line printed for one value. *)
Definition value_line (v : cell) : string := " " +:+ str v +:+ " (Visa Signature)".

(** * Properties *)

Example ascii_lower_ex : Text.ascii_lower "Visa Signature" = "visa signature".
Proof. reflexivity. Qed.

Example search_ex : Text.search "icici" (Text.ascii_lower "The ICICI Bank") = true.
Proof. reflexivity. Qed.

Example case_variant_ex : Text.case_variant "icici bank" "ICICI Bank" = true.
Proof. reflexivity. Qed.

Example wordy_ex : Text.wordy "Visa Signature" = true ∧ Text.wordy "-1.#QNAN" = false.
Proof. split; reflexivity. Qed.

(** ** Text *)

Section text_facts.
Import Text.

Lemma prefix_spec pat s :
  String.prefix pat s = true ↔ ∃ post, s = pat +:+ post.
Proof.
  revert s. induction pat as [|a pat IH]; intros [|b s]; simpl.
  - split; eauto.
  - split; eauto.
  - split; [done | by intros [post ?]].
  - destruct (ascii_dec a b) as [->|Hne].
    + rewrite IH. split; intros [post Hpost]; exists post.
      * by rewrite Hpost.
      * by injection Hpost.
    + split; [done | intros [post Hpost]]. by injection Hpost.
Qed.

Lemma search_spec pat s : search pat s = true ↔ substring_of pat s.
Proof.
  unfold substring_of. induction s as [|b s IH]; cbn [search].
  - rewrite orb_false_r, prefix_spec. split.
    + intros [post Hpost]. by exists EmptyString, post.
    + intros ([|??] & post & Hpost); [by exists post | done].
  - rewrite orb_true_iff, prefix_spec, IH. split.
    + intros [[post Hpost]|(pre & post & Hpost)].
      * by exists EmptyString, post.
      * exists (String b pre), post. by rewrite Hpost.
    + intros ([|a pre] & post & Hpost).
      * left. by exists post.
      * right. exists pre, post. by injection Hpost.
Qed.

Lemma lower_char_swapcase c : lower_char (swapcase_char c) = lower_char c.
Proof. by destruct c as [[] [] [] [] [] [] [] []]. Qed.

Lemma ascii_lower_case_variant s s' :
  case_variant s s' = true → ascii_lower s = ascii_lower s'.
Proof.
  revert s'. induction s as [|c s IH]; intros [|c' s']; simpl; try done.
  rewrite andb_true_iff, orb_true_iff, !Ascii.eqb_eq.
  intros [Hc Hs]. rewrite (IH _ Hs).
  by destruct Hc as [->| ->]; rewrite ?lower_char_swapcase.
Qed.

Lemma case_variant_lower s : case_variant s (ascii_lower s) = true.
Proof.
  induction s as [|c s IH]; simpl; [done|]. rewrite IH, andb_true_r.
  by destruct c as [[] [] [] [] [] [] [] []].
Qed.

Lemma text_letter_not_digit c : text_letter c = true → is_digit c = false.
Proof. by destruct c as [[] [] [] [] [] [] [] []]. Qed.

Lemma wordy_not_digits s : wordy s = true → all_digits s = false.
Proof.
  induction s as [|c s IH]; simpl; [done|].
  intros [Hc|Hs]%orb_true_iff.
  - by rewrite (text_letter_not_digit c Hc).
  - by rewrite (IH Hs), andb_false_r.
Qed.

Lemma wordy_not_uint s : wordy s = true → is_uint s = false.
Proof. intros Hs. unfold is_uint. by rewrite (wordy_not_digits s Hs). Qed.
End text_facts.

(** ** The reference instance has the facts asked of the libraries *)

Lemma default_na_wordy t : Text.wordy t = true → default_na t = false.
Proof.
  intros Ht. apply bool_decide_eq_false. intros Hin. unfold na_tokens in Hin.
  repeat (apply elem_of_cons in Hin as [->|Hin]; [by vm_compute in Ht|]).
  by apply elem_of_nil in Hin.
Qed.

Lemma uint_to_numeric_wordy (cells : list cell) t :
  Some t ∈ cells → Text.wordy t = true → uint_to_numeric cells = None.
Proof.
  intros Hin Ht. unfold uint_to_numeric.
  destruct (forallb _ cells) eqn:Hall; [|done].
  rewrite forallb_forall in Hall.
  specialize (Hall (Some t) (proj1 (list_elem_of_In _ _) Hin)). simpl in Hall.
  by rewrite (wordy_not_uint t Ht) in Hall.
Qed.

Lemma uint_to_numeric_length (cells vs : list cell) :
  uint_to_numeric cells = Some vs → length vs = length cells.
Proof.
  unfold uint_to_numeric. destruct (forallb _ cells); [|done].
  destruct (forallb _ cells); intros [= <-]; [done | by rewrite length_fmap].
Qed.

Lemma uint_to_numeric_nan (cells vs : list cell) i :
  uint_to_numeric cells = Some vs → cells !! i = Some None ↔ vs !! i = Some None.
Proof.
  unfold uint_to_numeric. destruct (forallb _ cells); [|done].
  destruct (forallb _ cells); intros [= <-]; [done|].
  rewrite list_lookup_fmap. by destruct (cells !! i) as [[t|]|].
Qed.

#[global] Instance reference_pandas : Pandas := {|
  py_lower := Text.ascii_lower;
  na_value := default_na;
  to_numeric := uint_to_numeric;
  lower_ascii := λ s _, eq_refl;
  lower_case_variant := ascii_lower_case_variant;
  na_nan := eq_refl;
  na_wordy := default_na_wordy;
  to_numeric_wordy := uint_to_numeric_wordy;
  to_numeric_length := uint_to_numeric_length;
  to_numeric_nan := uint_to_numeric_nan
|}.

(** ** Columns of a loaded table *)

Section frame_facts.
Context `{Pandas}.

Lemma length_values_infer (cells : list cell) : length (values (infer cells)) = length cells.
Proof.
  destruct cells as [|v cells]; [done|]. unfold infer.
  destruct (forallb _ _); [done|].
  destruct (to_numeric (v :: cells)) as [vs|] eqn:Hvs; [|done].
  by apply to_numeric_length.
Qed.

Lemma infer_text_values (cells : list cell) :
  is_text (infer cells) = true → values (infer cells) = cells.
Proof.
  destruct cells as [|v cells]; [done|]. unfold infer.
  destruct (forallb _ _); [done|]. by destruct (to_numeric (v :: cells)).
Qed.

Lemma infer_nan (cells : list cell) i :
  values (infer cells) !! i = Some None ↔ cells !! i = Some None.
Proof.
  destruct cells as [|v cells]; [done|]. unfold infer.
  destruct (forallb _ _); [done|].
  destruct (to_numeric (v :: cells)) as [vs|] eqn:Hvs; [|done].
  symmetry. by apply to_numeric_nan.
Qed.

Lemma infer_wordy (cells : list cell) t :
  Some t ∈ cells → Text.wordy t = true → is_text (infer cells) = true.
Proof.
  intros Hin Ht. destruct cells as [|v cells]; [done|]. unfold infer.
  destruct (forallb _ _) eqn:Hall.
  - rewrite forallb_forall in Hall.
    specialize (Hall (Some t) (proj1 (list_elem_of_In _ _) Hin)).
    by apply bool_decide_eq_true in Hall.
  - by rewrite (to_numeric_wordy _ t Hin Ht).
Qed.

Lemma infer_all_missing (cells : list cell) :
  cells ≠ [] → (∀ v, v ∈ cells → v = None) → is_text (infer cells) = false.
Proof.
  intros Hne Hall. destruct cells as [|v cells]; [done|]. unfold infer.
  destruct (forallb _ _) eqn:Hf; [done|].
  apply not_true_iff_false in Hf. destruct Hf. apply forallb_forall.
  intros w Hw%list_elem_of_In. apply bool_decide_eq_true. by apply Hall.
Qed.

Lemma length_card_names records : length (card_names records) = length records.
Proof. unfold card_names, loaded_column. by rewrite length_values_infer, length_fmap. Qed.

Lemma text_column_values records c :
  text_column records c → values (loaded_column records c) = (λ r, cell_of r c) <$> records.
Proof. apply infer_text_values. Qed.

Lemma text_column_nil c : text_column [] c.
Proof. done. Qed.

Lemma text_column_wordy records r c f :
  r ∈ records → r !! c = Some f → Text.wordy f = true → text_column records c.
Proof.
  intros Hr Hf Hw. apply (infer_wordy _ f); [|done].
  apply list_elem_of_fmap. exists r. split; [|done].
  unfold cell_of. rewrite Hf. simpl. by rewrite na_wordy.
Qed.

Lemma text_column_missing records c :
  records ≠ [] → (∀ r, r ∈ records → cell_of r c = None) → ¬ text_column records c.
Proof.
  intros Hne Hall. unfold text_column, loaded_column.
  rewrite infer_all_missing; [done | by destruct records |].
  by intros v (r & -> & Hr%Hall)%list_elem_of_fmap.
Qed.

Lemma card_names_nan records i r :
  records !! i = Some r → cell_of r "Credit Card Name" = None →
  card_names records !! i = Some None.
Proof.
  intros Hi Hnone. apply infer_nan. by rewrite list_lookup_fmap, Hi, <- Hnone.
Qed.

Lemma assoc_labelled {A} (f : string → A) (cs : list string) c :
  assoc c ((λ c, (c, f c)) <$> cs) = if decide (c ∈ cs) then Some (f c) else None.
Proof.
  induction cs as [|c' cs IH]; [done|].
  rewrite fmap_cons. cbn [assoc]. destruct (decide (c = c')) as [->|Hne].
  - by rewrite decide_True by constructor.
  - rewrite IH. destruct (decide (c ∈ cs)).
    + by rewrite decide_True by (by constructor).
    + by rewrite decide_False by (by apply not_elem_of_cons).
Qed.

Lemma getitem_present header records c :
  c ∈ header → getitem (read_rows header records) c = Ok (loaded_column records c).
Proof.
  intros Hc. unfold getitem, read_rows; simpl.
  by rewrite assoc_labelled, decide_True.
Qed.

Lemma getitem_absent header records c :
  c ∉ header → getitem (read_rows header records) c = Raise (KeyError [c]).
Proof.
  intros Hc. unfold getitem, read_rows; simpl.
  by rewrite assoc_labelled, decide_False.
Qed.

Lemma getitem_list_present header records cs :
  cs ⊆ header →
  getitem_list (read_rows header records) cs =
    Ok {| index := length records;
          data := (λ c, (c, loaded_column records c)) <$> cs |}.
Proof.
  intros Hcs. unfold getitem_list, read_rows; simpl.
  assert (Hsub : ∀ c, c ∈ cs →
    assoc c ((λ c, (c, loaded_column records c)) <$> header)
    = Some (loaded_column records c)).
  { intros c Hc. rewrite assoc_labelled, decide_True; [done | by apply Hcs]. }
  clear Hcs. match goal with |- context [filter ?P cs] => assert (filter P cs = []) as -> end.
  { induction cs as [|c cs IH]; [done|].
    rewrite filter_cons, decide_False.
    - apply IH. intros c' Hc'. apply Hsub. by constructor.
    - rewrite Hsub; [done | by constructor]. }
  do 2 f_equal. induction cs as [|c cs IH]; [done|].
  simpl. rewrite Hsub by constructor. simpl. f_equal.
  apply IH. intros c' Hc'. apply Hsub. by constructor.
Qed.

Lemma getitem_list_absent header records cs :
  ¬ cs ⊆ header →
  getitem_list (read_rows header records) cs
    = Raise (KeyError (filter (λ c, c ∉ header) cs)) ∧
  filter (λ c, c ∉ header) cs ≠ [].
Proof.
  intros Hcs. unfold getitem_list, read_rows; simpl.
  rewrite (list_filter_iff _ (λ c, c ∉ header)).
  - destruct (filter _ cs) as [|c missing] eqn:Hf; [|done].
    destruct Hcs. intros c Hc. destruct (decide (c ∈ header)); [done|].
    assert (c ∈ @nil string) as Hnil; [|by apply elem_of_nil in Hnil].
    rewrite <- Hf. by apply list_elem_of_filter.
  - intros c. rewrite assoc_labelled. by case_decide.
Qed.
End frame_facts.

(** ** The masks, record by record *)

Section mask_facts.
Context `{Pandas}.

Lemma bind_ok {A B} (a : A) (k : A → result B) : Ok a ≫= k = k a.
Proof. done. Qed.

Lemma contains_lowered pat (col : Series) :
  str_contains pat false (str_lower col) = cell_test pat <$> col.
Proof.
  unfold str_contains, str_lower. rewrite <- list_fmap_compose.
  apply list_fmap_ext. by intros _ [t|] _.
Qed.

Lemma apply_columns_cons {A B} (f : Column A → result (Column B)) c col cols :
  apply_columns f ((c, col) :: cols) =
    match f col with
    | Ok col' =>
        match apply_columns f cols with
        | Ok rest => Ok ((c, col') :: rest)
        | Raise e => Raise e
        end
    | Raise e => Raise e
    end.
Proof. cbn [apply_columns]. by destruct (f col). Qed.

Lemma apply_columns_text pat records cs :
  Forall (text_column records) cs →
  apply_columns
    (λ col, s ← str_accessor col;
            mret (mkColumn false (str_contains pat false (str_lower s))))
    ((λ c, (c, loaded_column records c)) <$> cs)
  = Ok ((λ c, (c, mkColumn false (cell_test pat <$> ((λ r, cell_of r c) <$> records))))
          <$> cs).
Proof.
  induction 1 as [|c cs Hc _ IH]; [done|].
  rewrite !fmap_cons, apply_columns_cons.
  unfold str_accessor at 1. rewrite Hc. simpl. rewrite IH.
  by rewrite contains_lowered, text_column_values.
Qed.

Lemma apply_columns_refused pat records cs :
  ¬ Forall (text_column records) cs →
  apply_columns
    (λ col, s ← str_accessor col;
            mret (mkColumn false (str_contains pat false (str_lower s))))
    ((λ c, (c, loaded_column records c)) <$> cs)
  = Raise AttributeError.
Proof.
  induction cs as [|c cs IH]; intros Hcs; [by destruct Hcs|].
  rewrite fmap_cons, apply_columns_cons. unfold str_accessor at 1.
  destruct (is_text (loaded_column records c)) eqn:Hc; [|done]. simpl.
  rewrite IH; [done|]. intros Hrest. apply Hcs. by constructor.
Qed.

Lemma any_axis1_rows (test : cell → bool) (records : list Row) (cs : list string) :
  any_axis1 {| index := length records;
               data := (λ c, (c, mkColumn false (test <$> ((λ r, cell_of r c) <$> records))))
                         <$> cs |}
  = (λ r : Row, existsb (λ c, test (cell_of r c)) cs) <$> records.
Proof.
  unfold any_axis1; simpl. apply list_eq. intros i.
  rewrite !list_lookup_fmap. destruct (records !! i) as [r|] eqn:Hi; simpl.
  - rewrite lookup_seq_lt by (by eapply lookup_lt_Some). simpl. f_equal.
    induction cs as [|c cs IH]; [done|]. rewrite fmap_cons. cbn [existsb snd values].
    rewrite IH. f_equal. apply nth_lookup_Some.
    by rewrite !list_lookup_fmap, Hi.
  - by rewrite lookup_seq_ge by (by apply lookup_ge_None).
Qed.

(** How the script's expressions end on a loaded table. *)
Lemma visa_mask_cases header records :
  visa_mask (read_rows header records) =
    if decide (network_cols ⊆ header) then
      if decide (Forall (text_column records) network_cols) then
        Ok (network_test <$> records)
      else Raise AttributeError
    else Raise (KeyError (filter (λ c, c ∉ header) network_cols)).
Proof.
  unfold visa_mask. case_decide as Hcols.
  - rewrite getitem_list_present, bind_ok by done. unfold apply. cbn [data index].
    case_decide as Htext.
    + rewrite (apply_columns_text "visa signature" records network_cols Htext).
      rewrite !bind_ok. f_equal.
      exact (any_axis1_rows (cell_test "visa signature") records network_cols).
    + by rewrite (apply_columns_refused "visa signature" records network_cols Htext).
  - by rewrite (proj1 (getitem_list_absent header records _ Hcols)).
Qed.

Lemma canara_mask_cases header records :
  canara_mask (read_rows header records) =
    if decide ("Bank" ∈ header) then
      if decide (text_column records "Bank") then Ok (bank_test <$> records)
      else Raise AttributeError
    else Raise (KeyError ["Bank"]).
Proof.
  unfold canara_mask. case_decide as Hbank.
  - rewrite getitem_present by done. simpl. unfold str_accessor.
    case_decide as Htext.
    + rewrite Htext. simpl. rewrite contains_lowered, text_column_values by done.
      by rewrite <- list_fmap_compose.
    + apply not_true_is_false in Htext. by rewrite Htext.
  - by rewrite getitem_absent.
Qed.

Lemma final_mask_cases header records :
  final_mask (read_rows header records) =
    if decide (network_cols ⊆ header) then
      if decide (Forall (text_column records) network_cols) then
        if decide ("Bank" ∈ header) then
          if decide (text_column records "Bank") then Ok (qualifies_test <$> records)
          else Raise AttributeError
        else Raise (KeyError ["Bank"])
      else Raise AttributeError
    else Raise (KeyError (filter (λ c, c ∉ header) network_cols)).
Proof.
  unfold final_mask. rewrite visa_mask_cases, canara_mask_cases.
  repeat case_decide; try done. simpl. f_equal. unfold series_and.
  by rewrite zip_with_fmap_l, zip_with_fmap_r, zip_with_diag.
Qed.

Lemma matching_cards_cases header records :
  matching_cards (read_rows header records) =
    if decide (network_cols ⊆ header) then
      if decide (Forall (text_column records) network_cols) then
        if decide ("Bank" ∈ header) then
          if decide (text_column records "Bank") then
            if decide ("Credit Card Name" ∈ header) then
              Ok (unique (boolean_index (qualifies_test <$> records) (card_names records)))
            else Raise (KeyError ["Credit Card Name"])
          else Raise AttributeError
        else Raise (KeyError ["Bank"])
      else Raise AttributeError
    else Raise (KeyError (filter (λ c, c ∉ header) network_cols)).
Proof.
  unfold matching_cards, loc. rewrite final_mask_cases.
  repeat case_decide; try done; simpl.
  - by rewrite getitem_present.
  - by rewrite getitem_absent.
Qed.

Lemma visa_mask_rows header records :
  network_cols ⊆ header → Forall (text_column records) network_cols →
  visa_mask (read_rows header records) = Ok (network_test <$> records).
Proof. intros. by rewrite visa_mask_cases, !decide_True. Qed.

Lemma canara_mask_rows header records :
  "Bank" ∈ header → text_column records "Bank" →
  canara_mask (read_rows header records) = Ok (bank_test <$> records).
Proof. intros. by rewrite canara_mask_cases, !decide_True. Qed.

Lemma final_mask_rows header records :
  network_cols ⊆ header → Forall (text_column records) network_cols →
  "Bank" ∈ header → text_column records "Bank" →
  final_mask (read_rows header records) = Ok (qualifies_test <$> records).
Proof. intros. by rewrite final_mask_cases, !decide_True. Qed.

Lemma matching_cards_rows header records :
  network_cols ⊆ header → Forall (text_column records) network_cols →
  "Bank" ∈ header → text_column records "Bank" → "Credit Card Name" ∈ header →
  matching_cards (read_rows header records)
    = Ok (unique (boolean_index (qualifies_test <$> records) (card_names records))).
Proof. intros. by rewrite matching_cards_cases, !decide_True. Qed.

(** ** The tests decide the row view *)

Lemma cell_test_spec needle v :
  Text.is_ascii needle = true → Text.ascii_lower needle = needle →
  cell_test needle v = true ↔ contains_ci needle v.
Proof.
  intros Hascii Hlow. unfold contains_ci. rewrite (lower_ascii _ Hascii), Hlow.
  destruct v as [t|]; simpl.
  - rewrite search_spec. split; [by exists t | by intros (? & [= <-] & ?)].
  - split; [done | by intros (? & ? & ?)].
Qed.

Lemma network_test_spec r : network_test r = true ↔ network_match r.
Proof.
  unfold network_test, network_match. rewrite existsb_exists.
  by setoid_rewrite cell_test_spec; [setoid_rewrite list_elem_of_In|..].
Qed.

Lemma bank_test_spec r : bank_test r = true ↔ bank_match r.
Proof. by apply cell_test_spec. Qed.

Lemma qualifies_test_spec r : qualifies_test r = true ↔ qualifies r.
Proof.
  unfold qualifies_test, qualifies.
  by rewrite andb_true_iff, network_test_spec, bank_test_spec.
Qed.

Lemma qualifies_test_false r : qualifies_test r = false ↔ ¬ qualifies r.
Proof. rewrite <- qualifies_test_spec. by destruct (qualifies_test r). Qed.

Lemma network_test_all_null r :
  (∀ c, c ∈ network_cols → cell_of r c = None) → network_test r = false.
Proof.
  intros Hnull. destruct (network_test r) eqn:Htest; [|done].
  apply network_test_spec in Htest as (c & Hc & t & Ht & _).
  by rewrite (Hnull c Hc) in Ht.
Qed.
End mask_facts.

(** ** Distinct values, in order of first appearance *)

Lemma elem_of_unique_from seen s v :
  v ∈ unique_from seen s ↔ v ∈ s ∧ v ∉ seen.
Proof.
  revert seen. induction s as [|w s IH]; intros seen; simpl.
  - rewrite elem_of_nil. tauto.
  - destruct (decide (w ∈ seen)) as [Hw|Hw].
    + rewrite IH, elem_of_cons. split; [tauto|]. intros [[->|?] ?]; tauto.
    + rewrite !elem_of_cons, IH, not_elem_of_cons. split.
      * intros [->|[? [? ?]]]; tauto.
      * intros [[->|?] ?]; [tauto|]. destruct (decide (v = w)); tauto.
Qed.

Lemma NoDup_unique_from seen s : NoDup (unique_from seen s).
Proof.
  revert seen. induction s as [|w s IH]; intros seen; simpl.
  - constructor.
  - destruct (decide (w ∈ seen)); [apply IH|]. constructor; [|apply IH].
    rewrite elem_of_unique_from, not_elem_of_cons. tauto.
Qed.

Lemma elem_of_unique s v : v ∈ unique s ↔ v ∈ s.
Proof. unfold unique. rewrite elem_of_unique_from, elem_of_nil. tauto. Qed.

Lemma unique_from_ext seen seen' s :
  (∀ v, v ∈ seen ↔ v ∈ seen') → unique_from seen s = unique_from seen' s.
Proof.
  revert seen seen'. induction s as [|w s IH]; intros seen seen' Hext; [done|].
  cbn [unique_from]. destruct (decide (w ∈ seen)) as [Hw|Hw].
  - rewrite decide_True by (by apply Hext). by apply IH.
  - rewrite decide_False by (by rewrite <- Hext). f_equal. apply IH.
    intros v. rewrite !elem_of_cons, Hext. tauto.
Qed.

Lemma unique_from_app seen s1 s2 :
  unique_from seen (s1 ++ s2)%list
  = (unique_from seen s1 ++ unique_from (s1 ++ seen) s2)%list.
Proof.
  revert seen. induction s1 as [|w s1 IH]; intros seen; [done|].
  cbn [app unique_from]. destruct (decide (w ∈ seen)) as [Hw|Hw].
  - rewrite IH. f_equal. apply unique_from_ext.
    intros v. rewrite elem_of_cons. split; [tauto|]. intros [->|?]; [|done].
    apply elem_of_app. by right.
  - rewrite IH. cbn [app]. do 2 f_equal. apply unique_from_ext.
    intros v. rewrite !elem_of_app, !elem_of_cons, !elem_of_app. tauto.
Qed.

Lemma unique_from_seen seen s :
  (∀ v, v ∈ s → v ∈ seen) → unique_from seen s = [].
Proof.
  intros Hseen. induction s as [|w s IH]; [done|]. cbn [unique_from].
  rewrite decide_True by (apply Hseen; by constructor).
  apply IH. intros v Hv. apply Hseen. by constructor.
Qed.

Lemma unique_from_fresh seen s :
  NoDup s → (∀ v, v ∈ s → v ∉ seen) → unique_from seen s = s.
Proof.
  intros Hnd. revert seen. induction Hnd as [|w s Hw Hnd IH]; intros seen Hfresh; [done|].
  cbn [unique_from]. rewrite decide_False by (apply Hfresh; by constructor).
  f_equal. apply IH. intros v Hv. rewrite not_elem_of_cons. split.
  - by intros ->.
  - apply Hfresh. by constructor.
Qed.

Lemma length_unique_from seen s : (length (unique_from seen s) ≤ length s)%nat.
Proof.
  revert seen. induction s as [|w s IH]; intros seen; [done|].
  cbn [unique_from]. destruct (decide (w ∈ seen)); simpl.
  - specialize (IH seen). lia.
  - specialize (IH (w :: seen)). lia.
Qed.

(** ** The rows a mask keeps *)

Lemma elem_of_boolean_index {A} (mask : list bool) (s : list A) x :
  x ∈ boolean_index mask s ↔ ∃ i, mask !! i = Some true ∧ s !! i = Some x.
Proof.
  revert s. induction mask as [|b mask IH]; intros [|y s]; cbn [boolean_index].
  - rewrite elem_of_nil. split; [done | by intros (i & ? & _)].
  - rewrite elem_of_nil. split; [done | by intros (i & ? & _)].
  - rewrite elem_of_nil. split; [done | by intros (i & _ & ?)].
  - destruct b.
    + rewrite elem_of_cons, IH. split.
      * intros [->|(i & ? & ?)]; [by exists 0 | by exists (S i)].
      * intros ([|i] & Hm & Hs); [left; by injection Hs | right; by exists i].
    + rewrite IH. split.
      * intros (i & ? & ?). by exists (S i).
      * intros ([|i] & Hm & Hs); [done | by exists i].
Qed.

Lemma length_boolean_index {A} (mask : list bool) (s : list A) :
  length mask = length s →
  length (boolean_index mask s) = count_occ bool_dec mask true.
Proof.
  revert s. induction mask as [|b mask IH]; intros [|y s] Hlen; try done.
  cbn [boolean_index count_occ]. injection Hlen as Hlen.
  destruct b; simpl; by rewrite IH.
Qed.

Lemma count_true_le (mask : list bool) :
  (count_occ bool_dec mask true ≤ length mask)%nat.
Proof. induction mask as [|[] mask IH]; simpl; lia. Qed.

Lemma boolean_index_app {A} (mask1 mask2 : list bool) (s1 s2 : list A) :
  length mask1 = length s1 →
  boolean_index (mask1 ++ mask2)%list (s1 ++ s2)%list
  = (boolean_index mask1 s1 ++ boolean_index mask2 s2)%list.
Proof.
  revert s1. induction mask1 as [|b mask1 IH]; intros [|y s1] Hlen; try done.
  injection Hlen as Hlen. cbn [app boolean_index].
  destruct b; by rewrite IH.
Qed.

Lemma boolean_index_delete {A} (mask : list bool) (s : list A) i :
  mask !! i = Some false →
  boolean_index (delete i mask) (delete i s) = boolean_index mask s.
Proof.
  revert s i. induction mask as [|b mask IH]; intros s i Hi; [done|].
  destruct i as [|i]; simpl in Hi.
  - injection Hi as ->. destruct s as [|y s]; simpl; [by destruct mask | done].
  - destruct s as [|y s]; simpl; [done|].
    specialize (IH s i Hi). simpl in IH. destruct b; by rewrite IH.
Qed.

Lemma boolean_index_fmap {A B} (test : A → bool) (f : A → B) (l : list A) :
  boolean_index (test <$> l) (f <$> l) = f <$> List.filter test l.
Proof.
  induction l as [|x l IH]; [done|].
  rewrite !fmap_cons. cbn [boolean_index List.filter].
  destruct (test x); by rewrite ?fmap_cons, IH.
Qed.

(** ** The first kept row of a value *)

Lemma first_kept_here b mask x names v :
  first_kept (b :: mask) (x :: names) v 0 ↔ b = true ∧ x = v.
Proof.
  unfold first_kept. simpl. split.
  - by intros [[[= ->] [= ->]] _].
  - intros [-> ->]. split; [done | intros; lia].
Qed.

Lemma first_kept_later b mask x names v i :
  first_kept (b :: mask) (x :: names) v (S i) ↔
  ¬ (b = true ∧ x = v) ∧ first_kept mask names v i.
Proof.
  unfold first_kept. simpl. split.
  - intros [Hi Hmin]. split; [|split; [done|]].
    + intros [-> ->]. by apply (Hmin 0); [lia|..].
    + intros j Hj. apply (Hmin (S j)). lia.
  - intros [Hr [Hi Hmin]]. split; [done|].
    intros [|j] Hj; simpl.
    + intros [= ->] [= ->]. by apply Hr.
    + apply Hmin. lia.
Qed.

Lemma first_kept_skip b mask x names v i :
  ¬ (b = true ∧ x = v) → first_kept (b :: mask) (x :: names) v i →
  ∃ i', i = S i' ∧ first_kept mask names v i'.
Proof.
  intros Hr Hi. destruct i as [|i].
  - by apply first_kept_here in Hi.
  - apply first_kept_later in Hi as [_ Hi]. by exists i.
Qed.

Lemma first_kept_stop mask x names v i :
  first_kept (true :: mask) (x :: names) v i → x = v → i = 0.
Proof.
  intros Hi Hv. destruct i as [|i]; [done|].
  apply first_kept_later in Hi as [Hr _]. by destruct Hr.
Qed.

Lemma first_kept_unique mask names v i j :
  first_kept mask names v i → first_kept mask names v j → i = j.
Proof.
  intros [[Hmi Hni] Hi] [[Hmj Hnj] Hj].
  destruct (Nat.lt_trichotomy i j) as [Hlt|[->|Hlt]]; [|done|].
  - by destruct (Hj i).
  - by destruct (Hi j).
Qed.

Lemma first_kept_exists mask names v i :
  mask !! i = Some true → names !! i = Some v → ∃ j, first_kept mask names v j.
Proof.
  revert names i. induction mask as [|b mask IH]; intros [|x names] i Hm Hn; try done.
  destruct (decide (b = true ∧ x = v)) as [[-> ->]|Hr].
  - exists 0. by apply first_kept_here.
  - destruct i as [|i].
    + simpl in Hm, Hn. destruct Hr. split; congruence.
    + destruct (IH names i Hm Hn) as [j Hj]. exists (S j).
      by apply first_kept_later.
Qed.

Lemma kept_first_seen mask names seen k1 k2 v1 v2 i1 i2 :
  let cards := unique_from seen (boolean_index mask names) in
  cards !! k1 = Some v1 → cards !! k2 = Some v2 →
  first_kept mask names v1 i1 → first_kept mask names v2 i2 →
  k1 < k2 → i1 < i2.
Proof.
  simpl. revert names seen k1 k2 i1 i2.
  induction mask as [|b mask IH]; intros [|x names] seen k1 k2 i1 i2; try done.
  cbn [boolean_index]. destruct b.
  - cbn [unique_from]. destruct (decide (x ∈ seen)) as [Hseen|Hseen].
    + intros Hk1 Hk2 Hi1 Hi2 Hlt.
      assert (Hv : ∀ k v, unique_from seen (boolean_index mask names) !! k = Some v →
                          ¬ (true = true ∧ x = v)).
      { intros k v Hk%list_elem_of_lookup_2 [_ <-].
        apply elem_of_unique_from in Hk. tauto. }
      apply first_kept_skip in Hi1 as (i1' & -> & Hi1); [|by eapply Hv].
      apply first_kept_skip in Hi2 as (i2' & -> & Hi2); [|by eapply Hv].
      apply ->Nat.succ_lt_mono. by eapply (IH names seen k1 k2).
    + intros Hk1 Hk2 Hi1 Hi2 Hlt.
      assert (Hv : ∀ k v, unique_from (x :: seen) (boolean_index mask names) !! k = Some v →
                          ¬ (true = true ∧ x = v)).
      { intros k v Hk%list_elem_of_lookup_2 [_ <-].
        apply elem_of_unique_from in Hk as [_ Hk]. apply Hk. by constructor. }
      destruct k2 as [|k2]; [lia|]. simpl in Hk2.
      apply first_kept_skip in Hi2 as (i2' & -> & Hi2); [|by eapply Hv].
      destruct k1 as [|k1]; simpl in Hk1.
      * injection Hk1 as <-. rewrite (first_kept_stop _ _ _ _ _ Hi1 eq_refl). lia.
      * apply first_kept_skip in Hi1 as (i1' & -> & Hi1); [|by eapply Hv].
        apply ->Nat.succ_lt_mono. eapply (IH _ _ k1 k2); [done..|lia].
  - intros Hk1 Hk2 Hi1 Hi2 Hlt.
    apply first_kept_skip in Hi1 as (i1' & -> & Hi1); [|by intros [? _]].
    apply first_kept_skip in Hi2 as (i2' & -> & Hi2); [|by intros [? _]].
    apply ->Nat.succ_lt_mono. by eapply (IH names seen k1 k2).
Qed.

Section first_qualifying_facts.
Context `{Pandas}.

Lemma qualifying_mask (records : list Row) i :
  (qualifies_test <$> records) !! i = Some true ↔
  ∃ r, records !! i = Some r ∧ qualifies r.
Proof.
  rewrite list_lookup_fmap. destruct (records !! i) as [r|]; simpl.
  - split.
    + intros [= Hq%qualifies_test_spec]. by exists r.
    + intros (r' & [= <-] & Hq%qualifies_test_spec). by rewrite Hq.
  - split; [done | by intros (r & ? & _)].
Qed.

Lemma first_qualifying_kept (records : list Row) v i :
  first_qualifying records v i ↔
  first_kept (qualifies_test <$> records) (card_names records) v i.
Proof.
  unfold first_qualifying, first_kept. rewrite qualifying_mask. split.
  - intros [(r & Hr & Hq & Hv) Hmin]. split; [split; [by exists r | done]|].
    intros j Hj (r' & Hr' & Hq')%qualifying_mask. by eapply Hmin.
  - intros [[(r & Hr & Hq) Hv] Hmin]. split; [by exists r|].
    intros j r' Hj Hr' Hq'. apply Hmin; [done|]. apply qualifying_mask. by exists r'.
Qed.

Lemma elem_of_selected (records : list Row) v :
  v ∈ boolean_index (qualifies_test <$> records) (card_names records) ↔
  ∃ i r, records !! i = Some r ∧ qualifies r ∧ card_names records !! i = Some v.
Proof.
  rewrite elem_of_boolean_index. setoid_rewrite qualifying_mask. split.
  - intros (i & (r & Hr & Hq) & Hv). by exists i, r.
  - intros (i & r & Hr & Hq & Hv). exists i. split; [by exists r | done].
Qed.
End first_qualifying_facts.

(** ** The lines of the report *)

Lemma report_lines cards out :
  report cards out = (out ++ header_line :: (value_line <$> cards))%list.
Proof.
  unfold report, print. simpl.
  change (header_line :: (value_line <$> cards))
    with ([header_line] ++ (value_line <$> cards))%list.
  rewrite (assoc_L app). generalize (out ++ [header_line])%list. clear out.
  induction cards as [|v cards IH]; intros acc; simpl.
  - by rewrite app_nil_r.
  - by rewrite IH, <- (assoc_L app).
Qed.

Lemma script_cases `{Pandas} (df : DataFrame cell) out :
  script (λ _, Ok df) out =
    match matching_cards df with
    | Ok cards => ((out ++ header_line :: (value_line <$> cards))%list, Ok ())
    | Raise e => (out, Raise e)
    end.
Proof.
  unfold script. simpl. destruct (matching_cards df); [|done].
  by rewrite report_lines.
Qed.

Lemma length_append s t :
  String.length (s +:+ t) = String.length s + String.length t.
Proof. induction s as [|c s IH]; simpl; [done | by rewrite IH]. Qed.

Lemma append_inj_r s s' suffix : s +:+ suffix = s' +:+ suffix → s = s'.
Proof.
  revert s'. induction s as [|c s IH]; intros [|c' s'] Heq.
  - done.
  - apply (f_equal String.length) in Heq.
    rewrite !length_append in Heq. simpl in Heq. lia.
  - apply (f_equal String.length) in Heq.
    rewrite !length_append in Heq. simpl in Heq. lia.
  - simpl in Heq. injection Heq as -> Heq. f_equal. by apply IH.
Qed.

Lemma value_line_inj v v' :
  value_line v = value_line v' → str v = str v'.
Proof.
  unfold value_line. simpl. intros [= Heq].
  exact (append_inj_r (str v) (str v') " (Visa Signature)" Heq).
Qed.

(** ** Letter case *)

Lemma cell_test_variant `{Pandas} needle v v' :
  cell_variant v v' → cell_test needle v = cell_test needle v'.
Proof.
  destruct v as [t|], v' as [t'|]; simpl; try done.
  by intros ->%lower_case_variant.
Qed.

Lemma row_variant_tests `{Pandas} r r' :
  row_variant r r' → network_test r = network_test r' ∧ bank_test r = bank_test r'.
Proof.
  unfold row_variant. rewrite Forall_cons. intros [Hbank Hnet]. split.
  - unfold network_test. induction Hnet as [|c cs Hc _ IH]; [done|].
    cbn [existsb]. by rewrite IH, (cell_test_variant _ _ _ Hc).
  - by apply cell_test_variant.
Qed.

Lemma rows_variant_tests `{Pandas} (records records' : list Row) :
  Forall2 row_variant records records' →
  network_test <$> records = network_test <$> records' ∧
  bank_test <$> records = bank_test <$> records'.
Proof.
  induction 1 as [|r r' records records' Hr _ [IHn IHb]]; [done|].
  apply row_variant_tests in Hr as [Hn Hb].
  rewrite !fmap_cons. by rewrite Hn, Hb, IHn, IHb.
Qed.

(** Closes a decidable statement about concrete data by evaluation. *)
Ltac by_evaluation := apply (bool_decide_unpack _); vm_compute; exact I.

(** * The claims *)

(** ** C1: the any-column mask *)

(** C1. The table of one record that names [Visa Signature] under
    [Network 1], other networks under [Network 2] and [Network 3] and
    nothing under [Network 4]: the table has the four network columns and the
    record has a network cell that contains the pattern, yet [visa_mask]
    ends in the [AttributeError] of the [.str] accessor, the [Network 4]
    column being a column without text; the script prints nothing. *)
Theorem visa_mask_refused_on_empty_column :
  network_cols ⊆ example_header ∧
  (∃ r, three_network_records !! 0 = Some r ∧ network_match r) ∧
  ¬ text_column three_network_records "Network 4" ∧
  visa_mask (read_rows example_header three_network_records) = Raise AttributeError ∧
  script (λ _, Ok (read_rows example_header three_network_records)) []
    = ([], Raise AttributeError).
Proof.
  split; [by_evaluation|]. split; [|split; [by vm_compute | split; by vm_compute]].
  eexists. split; [done|]. apply network_test_spec. by vm_compute.
Qed.

(** ** C2: distinct card names in order of first appearance *)

(** C2. On a loaded table that has the columns the script reads, the network
    and bank columns being columns of text, the script has a result; the
    result has no duplicate value; it holds the card name of every
    qualifying record; every value in it is the card name of a first
    qualifying record; and two values stand in the result in the order of
    their first qualifying records in the table. *)
Theorem matching_cards_distinct_first_seen `{Pandas}
    (header : list string) (records : list Row) :
  network_cols ⊆ header → "Bank" ∈ header → "Credit Card Name" ∈ header →
  Forall (text_column records) network_cols → text_column records "Bank" →
  ∃ cards, matching_cards (read_rows header records) = Ok cards ∧
    NoDup cards ∧
    (∀ i r v, records !! i = Some r → qualifies r →
              card_names records !! i = Some v → v ∈ cards) ∧
    (∀ v, v ∈ cards → ∃ i, first_qualifying records v i) ∧
    (∀ k1 k2 v1 v2 i1 i2,
       cards !! k1 = Some v1 → cards !! k2 = Some v2 →
       first_qualifying records v1 i1 → first_qualifying records v2 i2 →
       (k1 < k2 ↔ i1 < i2)).
Proof.
  intros Hcols Hbank Hname Htext Hbtext. eexists.
  split; [by apply matching_cards_rows|].
  split; [apply NoDup_unique_from|]. split; [|split].
  - intros i r v Hr Hq Hv. apply elem_of_unique, elem_of_selected. by exists i, r.
  - intros v (i & r & Hr & Hq & Hv)%elem_of_unique%elem_of_selected.
    destruct (first_kept_exists (qualifies_test <$> records) (card_names records) v i)
      as [j Hj]; [|done|].
    + apply qualifying_mask. by exists r.
    + exists j. by apply first_qualifying_kept.
  - intros k1 k2 v1 v2 i1 i2 Hk1 Hk2 Hi1%first_qualifying_kept Hi2%first_qualifying_kept.
    pose proof (kept_first_seen _ _ [] k1 k2 v1 v2 i1 i2 Hk1 Hk2 Hi1 Hi2) as H12.
    pose proof (kept_first_seen _ _ [] k2 k1 v2 v1 i2 i1 Hk2 Hk1 Hi2 Hi1) as H21.
    split; [done|]. intros Hlt.
    destruct (Nat.lt_trichotomy k1 k2) as [?|[->|Hgt]]; [done| |].
    + rewrite Hk1 in Hk2. injection Hk2 as ->.
      rewrite (first_kept_unique _ _ _ _ _ Hi1 Hi2) in Hlt. lia.
    + specialize (H21 Hgt). lia.
Qed.

Lemma matching_cards_distinct_first_seen_witness :
  ∃ cards, matching_cards (read_rows example_header catalogue) = Ok cards ∧
    NoDup cards ∧
    (∀ i r v, catalogue !! i = Some r → qualifies r →
              card_names catalogue !! i = Some v → v ∈ cards) ∧
    (∀ v, v ∈ cards → ∃ i, first_qualifying catalogue v i) ∧
    (∀ k1 k2 v1 v2 i1 i2,
       cards !! k1 = Some v1 → cards !! k2 = Some v2 →
       first_qualifying catalogue v1 i1 → first_qualifying catalogue v2 i2 →
       (k1 < k2 ↔ i1 < i2)).
Proof.
  apply (matching_cards_distinct_first_seen example_header catalogue); by_evaluation.
Defined.

(** ** C3: both predicates are required *)

(** C3. On a loaded table that has the columns the script reads, the network
    and bank columns being columns of text, the card name of a record that
    fails the network test or the bank test is in the result only if another
    record, which passes both tests, has the same card name; and every value
    of the result is the card name of a record that passes both tests. *)
Theorem failing_record_excluded `{Pandas}
    (header : list string) (records : list Row) (i : nat) (r : Row) (v : cell) :
  network_cols ⊆ header → "Bank" ∈ header → "Credit Card Name" ∈ header →
  Forall (text_column records) network_cols → text_column records "Bank" →
  records !! i = Some r → card_names records !! i = Some v →
  ¬ network_match r ∨ ¬ bank_match r →
  ∃ cards, matching_cards (read_rows header records) = Ok cards ∧
    (v ∈ cards ↔
     ∃ j r', j ≠ i ∧ records !! j = Some r' ∧ network_match r' ∧ bank_match r' ∧
             card_names records !! j = Some v) ∧
    (∀ w, w ∈ cards →
     ∃ j r', records !! j = Some r' ∧ network_match r' ∧ bank_match r' ∧
             card_names records !! j = Some w).
Proof.
  intros Hcols Hbank Hname Htext Hbtext Hr Hv Hfail.
  eexists. split; [by apply matching_cards_rows|].
  assert (Hin : ∀ w,
    w ∈ unique (boolean_index (qualifies_test <$> records) (card_names records)) ↔
    ∃ j r', records !! j = Some r' ∧ network_match r' ∧ bank_match r' ∧
            card_names records !! j = Some w).
  { intros w. rewrite elem_of_unique, elem_of_selected. unfold qualifies. split.
    - intros (j & r' & ? & [? ?] & ?). by exists j, r'.
    - intros (j & r' & ? & ? & ? & ?). by exists j, r'. }
  split; [|by intros w ?%Hin]. rewrite Hin. split.
  - intros (j & r' & Hr' & Hn & Hb & Hw). exists j, r'. repeat split; try done.
    intros ->. rewrite Hr in Hr'. injection Hr' as ->. tauto.
  - intros (j & r' & _ & ? & ? & ? & ?). by exists j, r'.
Qed.

Lemma failing_record_excluded_witness :
  ∃ cards, matching_cards (read_rows example_header catalogue) = Ok cards ∧
    (Some "Card B" ∈ cards ↔
     ∃ j r', j ≠ 1 ∧ catalogue !! j = Some r' ∧ network_match r' ∧ bank_match r' ∧
             card_names catalogue !! j = Some (Some "Card B")) ∧
    (∀ w, w ∈ cards →
     ∃ j r', catalogue !! j = Some r' ∧ network_match r' ∧ bank_match r' ∧
             card_names catalogue !! j = Some w).
Proof.
  apply (failing_record_excluded example_header catalogue 1
           {[ "Network 1" := "Rupay"; "Bank" := "ICICI Bank";
              "Credit Card Name" := "Card B" ]}); try by_evaluation.
  left. rewrite <- network_test_spec. by vm_compute.
Defined.

(** ** C4: the example of the specification *)

(** C4. On the four-record example of the specification, loaded under the
    six columns the script reads, the script has no result: no record has a
    value under [Network 3] or [Network 4], the two columns are columns
    without text and [visa_mask] ends in the [AttributeError] of the [.str]
    accessor; nothing is printed. Loaded under the four columns its records
    name, the script ends in the [KeyError] of the two other network columns.
    With [card_z] after it, which has a text in every column, the result is
    [Card A]. *)
Theorem example_result :
  matching_cards (read_rows example_header example_records) = Raise AttributeError ∧
  script (λ _, Ok (read_rows example_header example_records)) []
    = ([], Raise AttributeError) ∧
  script (λ _, Ok (read_rows named_header example_records)) []
    = ([], Raise (KeyError ["Network 3"; "Network 4"])) ∧
  script (λ _, Ok (read_rows example_header catalogue)) []
    = ([header_line; " Card A (Visa Signature)"], Ok ()).
Proof. repeat split; by vm_compute. Qed.

(** ** C5: letter case of the inspected cells *)


Lemma masks_variant `{Pandas} (header : list string) (records records' : list Row) :
  Forall2 row_variant records records' →
  Forall (λ c, text_column records c ↔ text_column records' c) ("Bank" :: network_cols) →
  visa_mask (read_rows header records) = visa_mask (read_rows header records') ∧
  canara_mask (read_rows header records) = canara_mask (read_rows header records') ∧
  final_mask (read_rows header records) = final_mask (read_rows header records').
Proof.
  intros Hvar [Hbt Hnt]%Forall_cons.
  destruct (rows_variant_tests records records' Hvar) as [Hnet Hbank].
  assert (Htexts : Forall (text_column records) network_cols ↔
                   Forall (text_column records') network_cols).
  { rewrite !Forall_forall. rewrite Forall_forall in Hnt.
    split; intros Hall c Hc; by apply (Hnt c Hc), Hall. }
  assert (Hvisa : visa_mask (read_rows header records)
                  = visa_mask (read_rows header records')).
  { rewrite !visa_mask_cases, Hnet.
    destruct (decide (network_cols ⊆ header)); [|done].
    destruct (decide (Forall (text_column records) network_cols)) as [Ht|Ht].
    - by rewrite decide_True by (by apply Htexts).
    - by rewrite decide_False by (by rewrite <- Htexts). }
  assert (Hcanara : canara_mask (read_rows header records)
                    = canara_mask (read_rows header records')).
  { rewrite !canara_mask_cases, Hbank.
    destruct (decide ("Bank" ∈ header)); [|done].
    destruct (decide (text_column records "Bank")) as [Ht|Ht].
    - by rewrite decide_True by (by apply Hbt).
    - by rewrite decide_False by (by rewrite <- Hbt). }
  unfold final_mask. by rewrite Hvisa, Hcanara.
Qed.



(** ** C6: records without any network *)

(** C6. The table of one record that names no network: the table has the
    four network columns, every network cell of the record is NaN, yet
    [visa_mask] ends in the [AttributeError] of the [.str] accessor instead of
    giving [False], the four columns being columns without text; the script
    has no result and prints nothing. *)
Theorem null_networks_refused :
  network_cols ⊆ example_header ∧
  (∀ c, c ∈ network_cols → cell_of no_network_record c = None) ∧
  visa_mask (read_rows example_header lone_records) = Raise AttributeError ∧
  matching_cards (read_rows example_header lone_records) = Raise AttributeError ∧
  script (λ _, Ok (read_rows example_header lone_records)) []
    = ([], Raise AttributeError).
Proof.
  split; [by_evaluation|]. split; [|repeat split; by vm_compute].
  intros c Hc. unfold network_cols in Hc.
  repeat (apply elem_of_cons in Hc as [->|Hc]; [reflexivity|]).
  by apply elem_of_nil in Hc.
Qed.

(** ** C7: a table without the card-name column *)




(** ** C8: the report *)

(** C8. The reporter adds to standard output the header line and then one
    line per value, in the order of the sequence, each made of a space, the
    value and the suffix [(Visa Signature)]; for the empty sequence it adds
    the header line alone. *)
Theorem report_header_then_values (values : Series) (out : stdout) :
  report values out
    = (out ++ header_line ::
         ((λ v, " " +:+ str v +:+ " (Visa Signature)") <$> values))%list ∧
  report [] out = (out ++ [header_line])%list.
Proof. split; apply report_lines. Qed.

(** ** C9: a qualifying record without a card name *)

(** C9. On a loaded table that has the columns the script reads, the network
    and bank columns being columns of text, a qualifying record whose
    card-name cell is NaN is not skipped: NaN is a value of the result, at
    one position only, and the script prints the value line of that
    position, which reads [nan]. *)
Theorem null_card_name_kept `{Pandas}
    (header : list string) (records : list Row) (r : Row) :
  network_cols ⊆ header → "Bank" ∈ header → "Credit Card Name" ∈ header →
  Forall (text_column records) network_cols → text_column records "Bank" →
  r ∈ records → qualifies r → cell_of r "Credit Card Name" = None →
  ∃ cards k,
    matching_cards (read_rows header records) = Ok cards ∧
    cards !! k = Some None ∧
    (∀ k', cards !! k' = Some None → k' = k) ∧
    (script (λ _, Ok (read_rows header records)) []).2 = Ok () ∧
    length (script (λ _, Ok (read_rows header records)) []).1 = S (length cards) ∧
    (script (λ _, Ok (read_rows header records)) []).1 !! S k
      = Some " nan (Visa Signature)".
Proof.
  intros Hcols Hbank Hname Htext Hbtext Hr Hq Hnull.
  pose proof (matching_cards_rows header records Hcols Htext Hbank Hbtext Hname) as Hcards.
  set (cards := unique (boolean_index (qualifies_test <$> records) (card_names records)))
    in *.
  assert (Hin : None ∈ cards).
  { apply list_elem_of_lookup in Hr as [i Hi].
    apply elem_of_unique, elem_of_selected. exists i, r.
    split; [done|]. split; [done|]. by apply (card_names_nan records i r). }
  apply list_elem_of_lookup in Hin as [k Hk]. exists cards, k.
  split; [done|]. split; [done|]. split.
  { intros k' Hk'. by eapply (NoDup_lookup cards), Hk; [apply NoDup_unique_from|]. }
  rewrite script_cases, Hcards. simpl.
  split; [done|]. split; [by rewrite length_fmap|].
  by rewrite list_lookup_fmap, Hk.
Qed.

Lemma null_card_name_kept_witness :
  ∃ cards k,
    matching_cards (read_rows example_header unnamed_records) = Ok cards ∧
    cards !! k = Some None ∧
    (∀ k', cards !! k' = Some None → k' = k) ∧
    (script (λ _, Ok (read_rows example_header unnamed_records)) []).2 = Ok () ∧
    length (script (λ _, Ok (read_rows example_header unnamed_records)) []).1
      = S (length cards) ∧
    (script (λ _, Ok (read_rows example_header unnamed_records)) []).1 !! S k
      = Some " nan (Visa Signature)".
Proof.
  apply (null_card_name_kept example_header unnamed_records unnamed_record);
    try by_evaluation.
  apply qualifies_test_spec. by vm_compute.
Defined.

(** * Further properties of the script *)

(** ** Tables whose six read columns are columns of text *)

Section all_text_facts.
Context `{Pandas}.

Lemma all_text_parts (records : list Row) :
  all_text records →
  text_column records "Credit Card Name" ∧ text_column records "Bank" ∧
  Forall (text_column records) network_cols.
Proof. unfold all_text, read_columns. rewrite !Forall_cons. tauto. Qed.

Lemma card_names_text (records : list Row) :
  text_column records "Credit Card Name" → card_names records = card_name <$> records.
Proof. apply text_column_values. Qed.

Lemma matching_cards_all_text header (records : list Row) :
  all_text records →
  matching_cards (read_rows header records) =
    if decide (network_cols ⊆ header) then
      if decide ("Bank" ∈ header) then
        if decide ("Credit Card Name" ∈ header) then
          Ok (unique (card_name <$> List.filter qualifies_test records))
        else Raise (KeyError ["Credit Card Name"])
      else Raise (KeyError ["Bank"])
    else Raise (KeyError (filter (λ c, c ∉ header) network_cols)).
Proof.
  intros (Hname & Hbank & Hnet)%all_text_parts. rewrite matching_cards_cases.
  rewrite (decide_True (P := Forall (text_column records) network_cols)) by done.
  rewrite (decide_True (P := text_column records "Bank")) by done.
  by rewrite card_names_text, boolean_index_fmap.
Qed.

Lemma elem_of_filtered (records : list Row) v :
  v ∈ card_name <$> List.filter qualifies_test records ↔
  ∃ r, r ∈ records ∧ qualifies r ∧ card_name r = v.
Proof.
  rewrite list_elem_of_fmap. setoid_rewrite list_elem_of_In.
  setoid_rewrite filter_In. setoid_rewrite qualifies_test_spec. split.
  - intros (r & -> & ? & ?). by exists r.
  - intros (r & ? & ? & <-). by exists r.
Qed.

Lemma filter_delete_rejected {A} (test : A → bool) (l : list A) i x :
  l !! i = Some x → test x = false →
  List.filter test (delete i l) = List.filter test l.
Proof.
  revert i. induction l as [|y l IH]; intros [|i] Hi Hx; try done.
  - injection Hi as ->. simpl. by rewrite Hx.
  - simpl. by rewrite (IH i).
Qed.

Lemma same_outcome header header' (records records' : list Row) :
  matching_cards (read_rows header records) = matching_cards (read_rows header' records') →
  ∀ out, script (λ _, Ok (read_rows header records)) out
         = script (λ _, Ok (read_rows header' records')) out.
Proof. intros Heq out. by rewrite !script_cases, Heq. Qed.
End all_text_facts.

(** ** The masks *)

(** X1. On a loaded table whose [Bank] column is there and is a column of
    text, [canara_mask] is computed, has one entry per record, and the entry
    of a record is [True] exactly when its bank cell is a text whose
    lower-cased form contains [icici]; a NaN bank cell gives [False]. *)
Theorem canara_mask_bank_column `{Pandas} (header : list string) (records : list Row) :
  "Bank" ∈ header → text_column records "Bank" →
  ∃ mask, canara_mask (read_rows header records) = Ok mask ∧
    length mask = length records ∧
    ∀ i r, records !! i = Some r →
      ∃ b, mask !! i = Some b ∧
        (b = true ↔
         ∃ t, cell_of r "Bank" = Some t ∧
           Text.substring_of (py_lower "icici") (py_lower t)).
Proof.
  intros Hbank Htext. exists (bank_test <$> records).
  split; [by apply canara_mask_rows|]. split; [by rewrite length_fmap|].
  intros i r Hi. exists (bank_test r). rewrite list_lookup_fmap, Hi.
  split; [done|]. by rewrite bank_test_spec.
Qed.

Lemma canara_mask_bank_column_witness :
  ∃ mask, canara_mask (read_rows example_header example_records) = Ok mask ∧
    length mask = length example_records ∧
    ∀ i r, example_records !! i = Some r →
      ∃ b, mask !! i = Some b ∧
        (b = true ↔
         ∃ t, cell_of r "Bank" = Some t ∧
           Text.substring_of (py_lower "icici") (py_lower t)).
Proof.
  apply (canara_mask_bank_column example_header example_records); by_evaluation.
Defined.

(** X2. On a loaded table that has the network and bank columns, all of them
    columns of text, the three masks are computed over the same row index,
    [final_mask] is the entrywise conjunction of the two others, and its
    entry for a record is [True] exactly when the record passes the network
    test and the bank test. *)
Theorem final_mask_conjunction `{Pandas} (header : list string) (records : list Row) :
  network_cols ⊆ header → "Bank" ∈ header →
  Forall (text_column records) network_cols → text_column records "Bank" →
  ∃ visa canara mask,
    visa_mask (read_rows header records) = Ok visa ∧
    canara_mask (read_rows header records) = Ok canara ∧
    final_mask (read_rows header records) = Ok mask ∧
    length visa = length records ∧ length canara = length records ∧
    length mask = length records ∧
    (∀ i b1 b2, visa !! i = Some b1 → canara !! i = Some b2 →
                mask !! i = Some (b1 && b2)) ∧
    (∀ i r, records !! i = Some r →
       ∃ b, mask !! i = Some b ∧ (b = true ↔ network_match r ∧ bank_match r)).
Proof.
  intros Hcols Hbank Htext Hbtext.
  exists (network_test <$> records), (bank_test <$> records),
         (qualifies_test <$> records).
  rewrite visa_mask_rows, canara_mask_rows, final_mask_rows by done.
  rewrite !length_fmap. repeat split; try done.
  - intros i b1 b2. rewrite !list_lookup_fmap.
    destruct (records !! i) as [r|]; simpl; [|done]. by intros [= <-] [= <-].
  - intros i r Hi. exists (qualifies_test r). rewrite list_lookup_fmap, Hi.
    split; [done|]. apply qualifies_test_spec.
Qed.

Lemma final_mask_conjunction_witness :
  ∃ visa canara mask,
    visa_mask (read_rows example_header catalogue) = Ok visa ∧
    canara_mask (read_rows example_header catalogue) = Ok canara ∧
    final_mask (read_rows example_header catalogue) = Ok mask ∧
    length visa = length catalogue ∧
    length canara = length catalogue ∧
    length mask = length catalogue ∧
    (∀ i b1 b2, visa !! i = Some b1 → canara !! i = Some b2 →
                mask !! i = Some (b1 && b2)) ∧
    (∀ i r, catalogue !! i = Some r →
       ∃ b, mask !! i = Some b ∧ (b = true ↔ network_match r ∧ bank_match r)).
Proof.
  apply (final_mask_conjunction example_header catalogue); by_evaluation.
Defined.

(** ** Missing columns *)

(** X3. When the header lacks one of the four network columns the script
    prints nothing and ends in a [KeyError] that names the missing network
    labels, all of them and in the order of [network_cols], whether or not
    the bank and card-name columns are there and whatever the records
    hold. *)
Theorem missing_network_columns `{Pandas}
    (header : list string) (records : list Row) (out : stdout) :
  ¬ network_cols ⊆ header →
  ∃ c missing,
    filter (λ c, c ∉ header) network_cols = c :: missing ∧
    visa_mask (read_rows header records) = Raise (KeyError (c :: missing)) ∧
    script (λ _, Ok (read_rows header records)) out
      = (out, Raise (KeyError (c :: missing))).
Proof.
  intros Hcols.
  destruct (getitem_list_absent header records network_cols Hcols) as [_ Hne].
  destruct (filter (λ c, c ∉ header) network_cols) as [|c missing] eqn:Hf; [done|].
  exists c, missing. split; [done|]. split.
  - by rewrite visa_mask_cases, decide_False, Hf.
  - by rewrite script_cases, matching_cards_cases, decide_False, Hf.
Qed.

Lemma missing_network_columns_witness :
  ∃ c missing,
    filter (λ c, c ∉ partial_header) network_cols = c :: missing ∧
    visa_mask (read_rows partial_header example_records)
      = Raise (KeyError (c :: missing)) ∧
    script (λ _, Ok (read_rows partial_header example_records)) []
      = ([], Raise (KeyError (c :: missing))).
Proof.
  apply (missing_network_columns partial_header example_records []).
  by_evaluation.
Defined.

(** X4. When the header has the four network columns, all of them columns of
    text, but no [Bank] column, the script prints nothing and ends in the
    [KeyError] of [Bank], whether or not the card-name column is there. *)
Theorem missing_bank_column `{Pandas}
    (header : list string) (records : list Row) (out : stdout) :
  network_cols ⊆ header → Forall (text_column records) network_cols →
  "Bank" ∉ header →
  canara_mask (read_rows header records) = Raise (KeyError ["Bank"]) ∧
  final_mask (read_rows header records) = Raise (KeyError ["Bank"]) ∧
  script (λ _, Ok (read_rows header records)) out = (out, Raise (KeyError ["Bank"])).
Proof.
  intros Hcols Htext Hbank. split; [|split].
  - by rewrite canara_mask_cases, decide_False.
  - rewrite final_mask_cases. rewrite !decide_True by done. by rewrite decide_False.
  - rewrite script_cases, matching_cards_cases. rewrite !decide_True by done.
    by rewrite decide_False.
Qed.

Lemma missing_bank_column_witness :
  canara_mask (read_rows bankless_header catalogue) = Raise (KeyError ["Bank"]) ∧
  final_mask (read_rows bankless_header catalogue) = Raise (KeyError ["Bank"]) ∧
  script (λ _, Ok (read_rows bankless_header catalogue)) []
    = ([], Raise (KeyError ["Bank"])).
Proof.
  apply (missing_bank_column bankless_header catalogue []); by_evaluation.
Defined.

(** ** What is printed *)

(** X5. Whatever [pd.read_csv] gives, a table of any shape or an exception,
    a run that ends in an exception has printed nothing, and a run that ends
    normally has added the header line followed by one line per value of a
    duplicate-free sequence, leaving the earlier lines in place. *)
Theorem output_all_or_nothing `{Pandas}
    (read_csv : string → result (DataFrame cell)) (out : stdout) :
  match (script read_csv out).2 with
  | Raise _ => (script read_csv out).1 = out
  | Ok _ =>
      ∃ cards, NoDup cards ∧
        (script read_csv out).1 = (out ++ header_line :: (value_line <$> cards))%list
  end.
Proof.
  unfold script. destruct (read_csv file_path) as [df|e]; simpl; [|done].
  unfold matching_cards. destruct (final_mask df) as [mask|e]; simpl; [|done].
  destruct (loc df mask "Credit Card Name") as [names|e]; simpl; [|done].
  exists (unique names). split; [apply NoDup_unique_from | apply report_lines].
Qed.

(** X6. On a loaded table that has the columns the script reads, the network
    and bank columns being columns of text, the script prints the header line
    alone exactly when no record qualifies; a table without records is one
    such case. *)
Theorem header_alone_iff_none_qualifies `{Pandas}
    (header : list string) (records : list Row) (out : stdout) :
  network_cols ⊆ header → "Bank" ∈ header → "Credit Card Name" ∈ header →
  Forall (text_column records) network_cols → text_column records "Bank" →
  (script (λ _, Ok (read_rows header records)) out = ((out ++ [header_line])%list, Ok ())
   ↔ ∀ r, r ∈ records → ¬ qualifies r) ∧
  script (λ _, Ok (read_rows header [])) out = ((out ++ [header_line])%list, Ok ()).
Proof.
  intros Hcols Hbank Hname Htext Hbtext. split.
  - rewrite script_cases, matching_cards_rows by done.
    set (cards := unique (boolean_index (qualifies_test <$> records) (card_names records))).
    assert (Hin : ∀ v, v ∈ cards ↔
      ∃ i r, records !! i = Some r ∧ qualifies r ∧ card_names records !! i = Some v).
    { intros v. unfold cards. by rewrite elem_of_unique, elem_of_selected. }
    split.
    + intros [= Heq] r Hr Hq. apply app_inv_head in Heq. injection Heq as Heq.
      apply fmap_nil_inv in Heq. apply list_elem_of_lookup in Hr as [i Hi].
      destruct (lookup_lt_is_Some_2 (card_names records) i) as [v Hv].
      { rewrite length_card_names. by eapply lookup_lt_Some. }
      assert (v ∈ cards) as Hv' by (apply Hin; by exists i, r).
      rewrite Heq in Hv'. by apply elem_of_nil in Hv'.
    + intros Hnone. assert (cards = []) as ->; [|done].
      apply elem_of_nil_inv. intros v (i & r & Hr & Hq & _)%Hin.
      destruct (Hnone r); [by eapply list_elem_of_lookup_2 | done].
  - rewrite script_cases, matching_cards_rows; try done.
    apply Forall_forall. intros c _. apply text_column_nil.
Qed.

Lemma header_alone_iff_none_qualifies_witness :
  (script (λ _, Ok (read_rows example_header catalogue)) []
     = (([] ++ [header_line])%list, Ok ())
   ↔ ∀ r, r ∈ catalogue → ¬ qualifies r) ∧
  script (λ _, Ok (read_rows example_header [])) [] = (([] ++ [header_line])%list, Ok ()).
Proof.
  apply (header_alone_iff_none_qualifies example_header catalogue []); by_evaluation.
Defined.

(** X7. On a loaded table that has the columns the script reads, the network
    and bank columns being columns of text, the number of values in the
    result is at most the number of [True] entries of [final_mask], itself at
    most the number of records, and the script prints one line more than
    there are values. *)
Theorem result_size_bounds `{Pandas} (header : list string) (records : list Row) :
  network_cols ⊆ header → "Bank" ∈ header → "Credit Card Name" ∈ header →
  Forall (text_column records) network_cols → text_column records "Bank" →
  ∃ mask cards,
    final_mask (read_rows header records) = Ok mask ∧
    matching_cards (read_rows header records) = Ok cards ∧
    (length cards ≤ count_occ bool_dec mask true)%nat ∧
    (count_occ bool_dec mask true ≤ length records)%nat ∧
    length (script (λ _, Ok (read_rows header records)) []).1 = S (length cards).
Proof.
  intros Hcols Hbank Hname Htext Hbtext. eexists _, _.
  split; [by apply final_mask_rows|]. split; [by apply matching_cards_rows|].
  split; [|split].
  - etrans; [apply length_unique_from|]. rewrite length_boolean_index; [done|].
    by rewrite length_fmap, length_card_names.
  - etrans; [apply count_true_le|]. by rewrite length_fmap.
  - rewrite script_cases, matching_cards_rows by done. simpl.
    by rewrite length_fmap.
Qed.

Lemma result_size_bounds_witness :
  ∃ mask cards,
    final_mask (read_rows example_header catalogue) = Ok mask ∧
    matching_cards (read_rows example_header catalogue) = Ok cards ∧
    (length cards ≤ count_occ bool_dec mask true)%nat ∧
    (count_occ bool_dec mask true ≤ length catalogue)%nat ∧
    length (script (λ _, Ok (read_rows example_header catalogue)) []).1
      = S (length cards).
Proof.
  apply (result_size_bounds example_header catalogue); by_evaluation.
Defined.

(** X8. On a loaded table that has the columns the script reads, the network
    and bank columns being columns of text, and in which no two qualifying
    records have the same card name, nothing is merged: the result has one
    value per [True] entry of [final_mask]. *)
Theorem distinct_names_all_kept `{Pandas} (header : list string) (records : list Row) :
  network_cols ⊆ header → "Bank" ∈ header → "Credit Card Name" ∈ header →
  Forall (text_column records) network_cols → text_column records "Bank" →
  (∀ i j ri rj v, records !! i = Some ri → records !! j = Some rj →
     qualifies ri → qualifies rj →
     card_names records !! i = Some v → card_names records !! j = Some v → i = j) →
  ∃ mask cards,
    final_mask (read_rows header records) = Ok mask ∧
    matching_cards (read_rows header records) = Ok cards ∧
    length cards = count_occ bool_dec mask true.
Proof.
  intros Hcols Hbank Hname Htext Hbtext Hdistinct. eexists _, _.
  split; [by apply final_mask_rows|]. split; [by apply matching_cards_rows|].
  rewrite <- (length_boolean_index _ (card_names records))
    by (by rewrite length_fmap, length_card_names).
  f_equal. apply unique_from_fresh; [|intros v _; apply not_elem_of_nil].
  assert (Hkept : ∀ i j v,
    (qualifies_test <$> records) !! i = Some true →
    (qualifies_test <$> records) !! j = Some true →
    card_names records !! i = Some v → card_names records !! j = Some v → i = j).
  { intros i j v (ri & Hi & Hqi)%qualifying_mask (rj & Hj & Hqj)%qualifying_mask.
    by apply (Hdistinct i j ri rj v). }
  clear Hdistinct. revert Hkept.
  generalize (qualifies_test <$> records) (card_names records).
  intros mask. induction mask as [|b mask IH]; intros [|x names] Hkept;
    try (cbn [boolean_index]; constructor).
  assert (Htail : NoDup (boolean_index mask names)).
  { apply IH. intros i j v Hi Hj Hvi Hvj.
    by injection (Hkept (S i) (S j) v Hi Hj Hvi Hvj). }
  cbn [boolean_index]. destruct b; [|done].
  apply NoDup_cons. split; [|done].
  intros (j & Hj & Hx)%elem_of_boolean_index.
  by specialize (Hkept 0 (S j) x eq_refl Hj eq_refl Hx).
Qed.

Lemma distinct_names_all_kept_witness :
  ∃ mask cards,
    final_mask (read_rows example_header (card_z :: later_records)) = Ok mask ∧
    matching_cards (read_rows example_header (card_z :: later_records)) = Ok cards ∧
    length cards = count_occ bool_dec mask true.
Proof.
  apply (distinct_names_all_kept example_header (card_z :: later_records));
    try by_evaluation.
  intros i j ri rj v Hi Hj _ _ Hvi Hvj.
  destruct i as [|[|[|i]]], j as [|[|[|j]]]; try done;
    vm_compute in Hvi, Hvj; congruence.
Defined.

(** X9. On a loaded table that has the columns the script reads, all of them
    columns of text, the lines the script prints are pairwise different, the
    header line included: a missing card name prints [nan], and no text of
    the column is [nan], which [pd.read_csv] reads as a missing value. *)
Theorem printed_lines_distinct `{Pandas} (header : list string) (records : list Row) :
  network_cols ⊆ header → "Bank" ∈ header → "Credit Card Name" ∈ header →
  all_text records →
  NoDup (script (λ _, Ok (read_rows header records)) []).1.
Proof.
  intros Hcols Hbank Hname Hall.
  rewrite script_cases, matching_cards_all_text, !decide_True by done. simpl.
  set (cards := unique (card_name <$> List.filter qualifies_test records)).
  assert (Hin : ∀ v, v ∈ cards → v ≠ Some "nan").
  { intros v (r & _ & _ & <-)%elem_of_unique%elem_of_filtered.
    unfold card_name, cell_of. destruct (r !! "Credit Card Name") as [f|]; [|done].
    simpl. destruct (na_value f) eqn:Hna; [done|].
    intros [= ->]. by rewrite na_nan in Hna. }
  apply NoDup_cons. split.
  - by intros (v & Hv & _)%list_elem_of_fmap.
  - apply NoDup_fmap_2_strong; [|apply NoDup_unique_from].
    intros v v' Hv Hv' Heq%value_line_inj.
    destruct v as [t|], v' as [t'|]; simpl in Heq; subst; try done.
    + by destruct (Hin _ Hv).
    + by destruct (Hin _ Hv').
Qed.

Lemma printed_lines_distinct_witness :
  NoDup (script (λ _, Ok (read_rows example_header unnamed_records)) []).1.
Proof.
  apply (printed_lines_distinct example_header unnamed_records); by_evaluation.
Defined.

(** ** How the result follows the table *)

(** X10. Taking a record that fails the network test or the bank test out of
    a loaded table changes neither the result nor the way the script ends,
    whatever the header, as long as the six read columns are columns of text
    with and without the record. *)
Theorem rejected_record_removable `{Pandas}
    (header : list string) (records : list Row) (i : nat) (r : Row) :
  all_text records → all_text (delete i records) →
  records !! i = Some r → ¬ qualifies r →
  matching_cards (read_rows header records)
    = matching_cards (read_rows header (delete i records)) ∧
  ∀ out, script (λ _, Ok (read_rows header records)) out
         = script (λ _, Ok (read_rows header (delete i records))) out.
Proof.
  intros Hall Hall' Hi Hq%qualifies_test_false.
  assert (Heq : matching_cards (read_rows header records)
                = matching_cards (read_rows header (delete i records))).
  { rewrite !matching_cards_all_text by done.
    by rewrite (filter_delete_rejected qualifies_test records i r). }
  split; [done | by apply same_outcome].
Qed.

Lemma rejected_record_removable_witness :
  matching_cards (read_rows example_header catalogue)
    = matching_cards (read_rows example_header (delete 1 catalogue)) ∧
  ∀ out, script (λ _, Ok (read_rows example_header catalogue)) out
         = script (λ _, Ok (read_rows example_header (delete 1 catalogue))) out.
Proof.
  apply (rejected_record_removable example_header catalogue 1
           {[ "Network 1" := "Rupay"; "Bank" := "ICICI Bank";
              "Credit Card Name" := "Card B" ]}).
  - by_evaluation.
  - by_evaluation.
  - reflexivity.
  - apply qualifies_test_false. by vm_compute.
Defined.

(** X11. Records added at the end of a loaded table only add at the end of
    the result: on tables that have the columns the script reads, all of them
    columns of text with and without the added records, the result for the
    shorter table is a prefix of the result for the longer one, and so are
    the printed lines. *)
Theorem result_grows_at_the_end `{Pandas} (header : list string) (records more : list Row) :
  network_cols ⊆ header → "Bank" ∈ header → "Credit Card Name" ∈ header →
  all_text records → all_text (records ++ more)%list →
  ∃ cards cards',
    matching_cards (read_rows header records) = Ok cards ∧
    matching_cards (read_rows header (records ++ more)%list) = Ok cards' ∧
    cards `prefix_of` cards' ∧
    (script (λ _, Ok (read_rows header records)) []).1
      `prefix_of` (script (λ _, Ok (read_rows header (records ++ more)%list)) []).1.
Proof.
  intros Hcols Hbank Hname Hall Hall'.
  assert (Hrun : ∀ records', all_text records' →
    matching_cards (read_rows header records')
    = Ok (unique (card_name <$> List.filter qualifies_test records'))).
  { intros records' Hall0. by rewrite matching_cards_all_text, !decide_True. }
  eexists _, _. split; [by apply Hrun|]. split; [by apply Hrun|].
  assert (Hpre : unique (card_name <$> List.filter qualifies_test records)
    `prefix_of` unique (card_name <$> List.filter qualifies_test (records ++ more)%list)).
  { unfold unique. rewrite List.filter_app, fmap_app, unique_from_app.
    by apply prefix_app_r. }
  split; [done|]. rewrite !script_cases, !Hrun by done. simpl.
  apply prefix_cons. destruct Hpre as [rest ->]. rewrite fmap_app.
  by apply prefix_app_r.
Qed.

Lemma result_grows_at_the_end_witness :
  ∃ cards cards',
    matching_cards (read_rows example_header catalogue) = Ok cards ∧
    matching_cards (read_rows example_header (catalogue ++ later_records)%list)
      = Ok cards' ∧
    cards `prefix_of` cards' ∧
    (script (λ _, Ok (read_rows example_header catalogue)) []).1
      `prefix_of`
      (script (λ _, Ok (read_rows example_header
                          (catalogue ++ later_records)%list)) []).1.
Proof.
  apply (result_grows_at_the_end example_header catalogue later_records);
    by_evaluation.
Defined.

(** X12. Records added at the end whose card names, when they qualify, are
    already the card name of a qualifying record of the table leave the
    result and the printed lines as they are, whatever the header, as long
    as the six read columns are columns of text with and without the added
    records. *)
Theorem known_names_add_nothing `{Pandas} (header : list string) (records more : list Row) :
  all_text records → all_text (records ++ more)%list →
  (∀ r, r ∈ more → qualifies r →
     ∃ r', r' ∈ records ∧ qualifies r' ∧ card_name r' = card_name r) →
  matching_cards (read_rows header (records ++ more)%list)
    = matching_cards (read_rows header records) ∧
  ∀ out, script (λ _, Ok (read_rows header (records ++ more)%list)) out
         = script (λ _, Ok (read_rows header records)) out.
Proof.
  intros Hall Hall' Hknown.
  assert (Heq : matching_cards (read_rows header (records ++ more)%list)
                = matching_cards (read_rows header records)).
  { rewrite !matching_cards_all_text by done. unfold unique.
    rewrite List.filter_app, fmap_app, unique_from_app.
    rewrite (unique_from_seen _ (card_name <$> List.filter qualifies_test more)).
    - by rewrite app_nil_r.
    - intros v (r & Hr & Hq & <-)%elem_of_filtered.
      rewrite app_nil_r. apply elem_of_filtered. by apply Hknown. }
  split; [done | by apply same_outcome].
Qed.

Lemma known_names_add_nothing_witness :
  matching_cards (read_rows example_header (catalogue ++ repeated_records)%list)
    = matching_cards (read_rows example_header catalogue) ∧
  ∀ out, script (λ _, Ok (read_rows example_header
                            (catalogue ++ repeated_records)%list)) out
         = script (λ _, Ok (read_rows example_header catalogue)) out.
Proof.
  apply (known_names_add_nothing example_header catalogue repeated_records).
  - by_evaluation.
  - by_evaluation.
  - intros r Hr Hq. unfold repeated_records in Hr.
    apply elem_of_cons in Hr as [->|Hr].
    + exists {[ "Network 1" := "Visa Signature"; "Bank" := "ICICI Bank";
                "Credit Card Name" := "Card A" ]}.
      split; [by_evaluation|]. split; [|reflexivity].
      apply qualifies_test_spec. by vm_compute.
    + apply elem_of_cons in Hr as [->|Hr]; [|by apply elem_of_nil in Hr].
      apply qualifies_test_spec in Hq. by vm_compute in Hq.
Defined.

(** X13. Putting the records of a loaded table in another order changes the
    order of the result only: on tables that have the columns the script
    reads, all of them columns of text in both orders, the two results hold
    the same values, each once. *)
Theorem reordered_records_same_values `{Pandas}
    (header : list string) (records records' : list Row) :
  network_cols ⊆ header → "Bank" ∈ header → "Credit Card Name" ∈ header →
  all_text records → all_text records' →
  records ≡ₚ records' →
  ∃ cards cards',
    matching_cards (read_rows header records) = Ok cards ∧
    matching_cards (read_rows header records') = Ok cards' ∧
    cards ≡ₚ cards'.
Proof.
  intros Hcols Hbank Hname Hall Hall' Hperm. eexists _, _.
  split; [by rewrite matching_cards_all_text, !decide_True|].
  split; [by rewrite matching_cards_all_text, !decide_True|].
  apply NoDup_Permutation; [apply NoDup_unique_from..|].
  intros v. rewrite !elem_of_unique, !elem_of_filtered.
  by setoid_rewrite Hperm.
Qed.

Lemma reordered_records_same_values_witness :
  ∃ cards cards',
    matching_cards (read_rows example_header (later_records ++ catalogue)%list)
      = Ok cards ∧
    matching_cards (read_rows example_header (catalogue ++ later_records)%list)
      = Ok cards' ∧
    cards ≡ₚ cards'.
Proof.
  apply (reordered_records_same_values example_header
           (later_records ++ catalogue)%list
           (catalogue ++ later_records)%list); by_evaluation.
Defined.

(** X14. The result depends on the header only through the presence of the
    six columns the script reads: two headers that both have them, in any
    order and with any other columns, give the same result and the same
    printed lines for the same records. *)
Theorem other_columns_ignored `{Pandas} (header header' : list string) (records : list Row) :
  network_cols ⊆ header → "Bank" ∈ header → "Credit Card Name" ∈ header →
  network_cols ⊆ header' → "Bank" ∈ header' → "Credit Card Name" ∈ header' →
  matching_cards (read_rows header records)
    = matching_cards (read_rows header' records) ∧
  ∀ out, script (λ _, Ok (read_rows header records)) out
         = script (λ _, Ok (read_rows header' records)) out.
Proof.
  intros Hcols Hbank Hname Hcols' Hbank' Hname'.
  assert (Heq : matching_cards (read_rows header records)
                = matching_cards (read_rows header' records)).
  { rewrite !matching_cards_cases.
    rewrite !(decide_True (P := network_cols ⊆ _)) by done.
    rewrite !(decide_True (P := "Bank" ∈ _)) by done.
    by rewrite !(decide_True (P := "Credit Card Name" ∈ _)) by done. }
  split; [done | by apply same_outcome].
Qed.

Lemma other_columns_ignored_witness :
  matching_cards (read_rows example_header example_records)
    = matching_cards (read_rows wide_header example_records) ∧
  ∀ out, script (λ _, Ok (read_rows example_header example_records)) out
         = script (λ _, Ok (read_rows wide_header example_records)) out.
Proof.
  apply (other_columns_ignored example_header wide_header example_records);
    by_evaluation.
Defined.

(** X15. When the records of two loaded tables have, as [pd.read_csv] reads
    them, the same card-name cells and network and bank cells that differ
    only in the case of ASCII letters, and each network or bank column is a
    column of text in one table exactly when it is in the other, the script
    gives the same result and prints the same lines for both, whatever the
    header. *)
Theorem output_case_insensitive `{Pandas}
    (header : list string) (records records' : list Row) :
  Forall2 (λ r r', row_variant r r' ∧ card_name r = card_name r') records records' →
  Forall (λ c, text_column records c ↔ text_column records' c) ("Bank" :: network_cols) →
  matching_cards (read_rows header records)
    = matching_cards (read_rows header records') ∧
  ∀ out, script (λ _, Ok (read_rows header records)) out
         = script (λ _, Ok (read_rows header records')) out.
Proof.
  intros Hvar Htexts.
  assert (Hmask : final_mask (read_rows header records)
                  = final_mask (read_rows header records')).
  { apply masks_variant; [|done]. eapply Forall2_impl; [done|]. by intros r r' [? _]. }
  assert (Hnames : ∀ c, loc (read_rows header records) c "Credit Card Name"
                        = loc (read_rows header records') c "Credit Card Name").
  { intros mask. unfold loc.
    destruct (decide ("Credit Card Name" ∈ header)).
    - rewrite !getitem_present by done. unfold loaded_column.
      assert (Hcells : (λ r, cell_of r "Credit Card Name") <$> records
                       = (λ r, cell_of r "Credit Card Name") <$> records').
      { clear Htexts Hmask. induction Hvar as [|r r' l l' [_ Hname] _ IH]; [done|].
        rewrite !fmap_cons. f_equal; [exact Hname | exact IH]. }
      by rewrite Hcells.
    - by rewrite !getitem_absent. }
  assert (Heq : matching_cards (read_rows header records)
                = matching_cards (read_rows header records')).
  { unfold matching_cards. rewrite Hmask.
    destruct (final_mask (read_rows header records')) as [mask|e]; simpl; [|done].
    by rewrite Hnames. }
  split; [done | by apply same_outcome].
Qed.

Lemma output_case_insensitive_witness :
  matching_cards (read_rows example_header catalogue)
    = matching_cards (read_rows example_header recased_catalogue) ∧
  ∀ out, script (λ _, Ok (read_rows example_header catalogue)) out
         = script (λ _, Ok (read_rows example_header recased_catalogue)) out.
Proof.
  apply (output_case_insensitive example_header catalogue recased_catalogue).
  - unfold catalogue, example_records, card_z, recased_catalogue, row_variant,
      network_cols. simpl.
    repeat (constructor;
            [split; [repeat (constructor; [by vm_compute|]); constructor | reflexivity]|]).
    constructor.
  - unfold network_cols. repeat (constructor; [by vm_compute|]). constructor.
Defined.

(** ** Columns without text *)

(** X16. On a loaded table the script has a result, and ends normally,
    exactly when the header has the four network columns, [Bank] and
    [Credit Card Name] and the network and bank columns are columns of
    text. *)
Theorem result_exists_iff `{Pandas} (header : list string) (records : list Row) :
  ((∃ cards, matching_cards (read_rows header records) = Ok cards) ↔
   network_cols ⊆ header ∧ "Bank" ∈ header ∧ "Credit Card Name" ∈ header ∧
   Forall (text_column records) network_cols ∧ text_column records "Bank") ∧
  ((script (λ _, Ok (read_rows header records)) []).2 = Ok () ↔
   ∃ cards, matching_cards (read_rows header records) = Ok cards).
Proof.
  split.
  - rewrite matching_cards_cases. split.
    + intros [cards Hcards]. by repeat case_decide.
    + intros (? & ? & ? & ? & ?). rewrite !decide_True by done. by eexists.
  - rewrite script_cases. destruct (matching_cards _) as [cards|e]; simpl.
    + split; [by exists cards | done].
    + split; [done | by intros [? ?]].
Qed.

(** X17. On a loaded table that has the four network columns, all of them
    columns of text, [visa_mask] is computed, has one entry per record, and
    the entry of a record is [True] exactly when one of the four columns
    holds, for that record, a text whose lower-cased form contains the
    lower-cased pattern [visa signature]; a NaN cell never counts. *)
Theorem visa_mask_any_column `{Pandas} (header : list string) (records : list Row) :
  network_cols ⊆ header → Forall (text_column records) network_cols →
  ∃ mask, visa_mask (read_rows header records) = Ok mask ∧
    length mask = length records ∧
    ∀ i r, records !! i = Some r →
      ∃ b, mask !! i = Some b ∧
        (b = true ↔
         ∃ c t, c ∈ network_cols ∧ cell_of r c = Some t ∧
           Text.substring_of (py_lower "visa signature") (py_lower t)).
Proof.
  intros Hcols Htext. exists (network_test <$> records).
  split; [by apply visa_mask_rows|]. split; [by rewrite length_fmap|].
  intros i r Hi. exists (network_test r).
  rewrite list_lookup_fmap, Hi. split; [done|].
  rewrite network_test_spec. unfold network_match, contains_ci. split.
  - intros (c & Hc & t & Ht & Hsub). by exists c, t.
  - intros (c & t & Hc & Ht & Hsub). exists c. split; [done | by exists t].
Qed.

Lemma visa_mask_any_column_witness :
  ∃ mask, visa_mask (read_rows example_header catalogue) = Ok mask ∧
    length mask = length catalogue ∧
    ∀ i r, catalogue !! i = Some r →
      ∃ b, mask !! i = Some b ∧
        (b = true ↔
         ∃ c t, c ∈ network_cols ∧ cell_of r c = Some t ∧
           Text.substring_of (py_lower "visa signature") (py_lower t)).
Proof.
  apply (visa_mask_any_column example_header catalogue); by_evaluation.
Defined.

(** X18. On a loaded table that has the network and bank columns, all of them
    columns of text, a record whose four network cells are NaN gets [False]
    in [visa_mask] and in [final_mask], whatever its bank cell holds. *)
Theorem null_networks_never_match `{Pandas}
    (header : list string) (records : list Row) (i : nat) (r : Row) :
  network_cols ⊆ header → "Bank" ∈ header →
  Forall (text_column records) network_cols → text_column records "Bank" →
  records !! i = Some r →
  (∀ c, c ∈ network_cols → cell_of r c = None) →
  ∃ visa mask,
    visa_mask (read_rows header records) = Ok visa ∧ visa !! i = Some false ∧
    final_mask (read_rows header records) = Ok mask ∧ mask !! i = Some false.
Proof.
  intros Hcols Hbank Htext Hbtext Hi Hnull.
  pose proof (network_test_all_null r Hnull) as Hnet.
  exists (network_test <$> records), (qualifies_test <$> records).
  rewrite visa_mask_rows, final_mask_rows, !list_lookup_fmap, Hi by done.
  simpl. unfold qualifies_test. by rewrite Hnet.
Qed.

Lemma null_networks_never_match_witness :
  ∃ visa mask,
    visa_mask (read_rows example_header no_network_records) = Ok visa ∧
    visa !! 5 = Some false ∧
    final_mask (read_rows example_header no_network_records) = Ok mask ∧
    mask !! 5 = Some false.
Proof.
  apply (null_networks_never_match example_header no_network_records 5
           no_network_record); try by_evaluation.
  intros c Hc. unfold network_cols in Hc.
  repeat (apply elem_of_cons in Hc as [->|Hc]; [reflexivity|]).
  by apply elem_of_nil in Hc.
Defined.

(** X19. On a loaded table that has the four network columns and at least one
    record, a network column under which no record has a value makes
    [visa_mask] end in the [AttributeError] of the [.str] accessor: the script
    prints nothing and ends in that exception, whatever the other columns
    hold. *)
Theorem empty_network_column_refused `{Pandas}
    (header : list string) (records : list Row) (c : string) (out : stdout) :
  network_cols ⊆ header → c ∈ network_cols → records ≠ [] →
  (∀ r, r ∈ records → cell_of r c = None) →
  visa_mask (read_rows header records) = Raise AttributeError ∧
  script (λ _, Ok (read_rows header records)) out = (out, Raise AttributeError).
Proof.
  intros Hcols Hc Hne Hnone.
  assert (Htext : ¬ Forall (text_column records) network_cols).
  { rewrite Forall_forall. intros Hall.
    by apply (text_column_missing records c Hne Hnone), Hall. }
  split.
  - rewrite visa_mask_cases, (decide_True (P := network_cols ⊆ header)) by done.
    by rewrite decide_False.
  - rewrite script_cases, matching_cards_cases.
    rewrite (decide_True (P := network_cols ⊆ header)) by done.
    by rewrite decide_False.
Qed.

Lemma empty_network_column_refused_witness :
  visa_mask (read_rows example_header example_records) = Raise AttributeError ∧
  script (λ _, Ok (read_rows example_header example_records)) []
    = ([], Raise AttributeError).
Proof.
  apply (empty_network_column_refused example_header example_records "Network 3" []);
    try by_evaluation.
  intros r Hr. unfold example_records in Hr.
  repeat (apply elem_of_cons in Hr as [->|Hr]; [reflexivity|]).
  by apply elem_of_nil in Hr.
Defined.

(** X20. On a loaded table that has the network columns, all of them columns
    of text, the [Bank] column and at least one record, a bank column under
    which no record has a value makes [canara_mask] end in the
    [AttributeError] of the [.str] accessor: the script prints nothing and
    ends in that exception. *)
Theorem empty_bank_column_refused `{Pandas}
    (header : list string) (records : list Row) (out : stdout) :
  network_cols ⊆ header → Forall (text_column records) network_cols →
  "Bank" ∈ header → records ≠ [] →
  (∀ r, r ∈ records → cell_of r "Bank" = None) →
  canara_mask (read_rows header records) = Raise AttributeError ∧
  script (λ _, Ok (read_rows header records)) out = (out, Raise AttributeError).
Proof.
  intros Hcols Htext Hbank Hne Hnone.
  pose proof (text_column_missing records "Bank" Hne Hnone) as Hbtext.
  split.
  - rewrite canara_mask_cases, (decide_True (P := "Bank" ∈ header)) by done.
    by rewrite decide_False.
  - rewrite script_cases, matching_cards_cases. rewrite !decide_True by done.
    by rewrite decide_False.
Qed.

Lemma empty_bank_column_refused_witness :
  canara_mask (read_rows example_header bank_na_upper) = Raise AttributeError ∧
  script (λ _, Ok (read_rows example_header bank_na_upper)) []
    = ([], Raise AttributeError).
Proof.
  apply (empty_bank_column_refused example_header bank_na_upper []);
    try by_evaluation.
  intros r Hr. unfold bank_na_upper in Hr.
  apply elem_of_cons in Hr as [->|Hr]; [reflexivity|].
  by apply elem_of_nil in Hr.
Defined.
